(** * A shallow embedding of [database.py] (sisi-expense)

    The module is the storage core of a shared expense tracker on top of
    SQLite.  Python strings are sequences of code points, modelled as
    [list N]; SQLite tables are lists of rows in scan (rowid) order; SQL
    numbers are 64-bit [INTEGER]s or [REAL]s, the latter Rocq's primitive
    IEEE-754 doubles; the clock and [os.urandom] are explicit inputs of the
    operations that read them. *)

From Stdlib Require Import Strings.String Strings.Byte.
From Stdlib Require Import ZArith List Bool Lia Sorting.Sorted Sorting.Permutation
  QArith.
From Stdlib Require Uint63.
From Stdlib Require Import Floats.
Import ListNotations.
Open Scope Z_scope.

(** ** Python strings *)

(** A Python [str]: its code points. *)
Definition pystr := list N.

(** Python's [str] comparison [a < b]: lexicographic on code points, a
    proper prefix being smaller. *)
Fixpoint py_lt (a b : pystr) : bool :=
  match a, b with
  | [], [] => false
  | [], _ :: _ => true
  | _ :: _, [] => false
  | x :: a', y :: b' =>
      if (x <? y)%N then true else if (x =? y)%N then py_lt a' b' else false
  end.

(** Python slicing [s[i:j]] for [0 <= i <= j]. *)
Definition sl {A} (i j : nat) (s : list A) : list A := firstn (j - i) (skipn i s).

(** ASCII text as a Python string. *)
Definition txt (s : string) : pystr := map (fun c => Ascii.N_of_ascii c) (list_ascii_of_string s).

(** ** [uuid7] *)

(** [int.from_bytes(bs, "big")]. *)
Definition from_bytes_big (bs : list byte) : Z :=
  fold_left (fun acc b => acc * 256 + Z.of_N (Byte.to_N b)) bs 0.

(** The integer built by [uuid7] from the millisecond timestamp [ts_ms]
    ([int(time.time() * 1000)]) and the two [os.urandom] results. *)
Definition uuid7_int (ts_ms : Z) (urand2 urand6 : list byte) : Z :=
  let time_high := Z.land (Z.shiftr ts_ms 28) 0xFFFFFFFF in
  let time_mid := Z.land (Z.shiftr ts_ms 12) 0xFFFF in
  let time_low := Z.land ts_ms 0xFFF in
  let rand_a := from_bytes_big urand2 in
  let rand_b := from_bytes_big urand6 in
  let msb := Z.lor (Z.lor (Z.shiftl time_high 32) (Z.shiftl time_mid 16))
                 (Z.lor 0x7000 time_low) in
  let lsb := Z.lor (Z.shiftl rand_a 48) rand_b in
  Z.lor (Z.shiftl msb 64) lsb.

(** A lower-case hexadecimal digit. *)
Definition hex_char (d : Z) : N :=
  if d <? 10 then Z.to_N (48 + d) else Z.to_N (87 + d).

(** The [k] lowest hexadecimal digits of [n], most significant first. *)
Fixpoint hex_chars (k : nat) (n : Z) : pystr :=
  match k with
  | O => []
  | Datatypes.S k' => hex_chars k' (n / 16) ++ [hex_char (n mod 16)]
  end.

(** Number of hexadecimal digits of [n >= 0]. *)
Definition hex_len (n : Z) : nat :=
  if n <=? 0 then 1%nat else Datatypes.S (Z.to_nat (Z.log2 n / 4)).

(** ['%032x' % n] for [n >= 0]. *)
Definition fmt_032x (n : Z) : pystr := hex_chars (Nat.max 32 (hex_len n)) n.

(** [UUID.__str__] on the 32 hex digits. *)
Definition uuid_fmt (hex : pystr) : pystr :=
  sl 0 8 hex ++ [45%N] ++ sl 8 12 hex ++ [45%N] ++ sl 12 16 hex ++ [45%N]
  ++ sl 16 20 hex ++ [45%N] ++ skipn 20 hex.

(** [str(uuid.UUID(int=n))]. *)
Definition uuid_str (n : Z) : pystr := uuid_fmt (fmt_032x n).

(** [uuid7()]. *)
Definition uuid7 (ts_ms : Z) (urand2 urand6 : list byte) : pystr :=
  uuid_str (uuid7_int ts_ms urand2 urand6).

(** ** Python helpers *)

Definition eqs (a b : pystr) : bool := if list_eq_dec N.eq_dec a b then true else false.

(** [str.isspace] on one code point. *)
Definition is_space (c : N) : bool :=
  ((9 <=? c) && (c <=? 13))%N || ((28 <=? c) && (c <=? 32))%N || (c =? 133)%N
  || (c =? 160)%N || (c =? 5760)%N || ((8192 <=? c) && (c <=? 8202))%N
  || (c =? 8232)%N || (c =? 8233)%N || (c =? 8239)%N || (c =? 8287)%N
  || (c =? 12288)%N.

Fixpoint lstrip (s : pystr) : pystr :=
  match s with
  | c :: s' => if is_space c then lstrip s' else s
  | [] => []
  end.

(** [str.strip()]. *)
Definition py_strip (s : pystr) : pystr := rev (lstrip (rev (lstrip s))).

(** A Python [set] of strings, as a list without repetitions; [set.add]. *)
Definition set_add (x : pystr) (st : list pystr) : list pystr :=
  if existsb (eqs x) st then st else x :: st.

(** A set comprehension [{f(r) for r in rows}]. *)
Definition set_of (xs : list pystr) : list pystr := fold_left (fun st x => set_add x st) xs [].

(** [a.union(b)]. *)
Definition set_union (a b : list pystr) : list pystr := fold_left (fun st x => set_add x st) b a.

(** [sorted()] on distinct strings: insertion by Python's [<]. *)
Fixpoint insert_sorted (x : pystr) (l : list pystr) : list pystr :=
  match l with
  | [] => [x]
  | y :: l' => if py_lt y x then y :: insert_sorted x l' else x :: l
  end.

Definition sorted (l : list pystr) : list pystr := fold_right insert_sorted [] l.

(** ** [time.strftime] on a [time.gmtime()] reading *)

Record tm := mk_tm { tm_year : Z; tm_mon : Z; tm_mday : Z; tm_hour : Z; tm_min : Z; tm_sec : Z }.

Definition digit_char (d : Z) : N := Z.to_N (48 + d).

Fixpoint dec_aux (fuel : nat) (n : Z) (acc : pystr) : pystr :=
  match fuel with
  | O => acc
  | Datatypes.S f =>
      let acc' := digit_char (n mod 10) :: acc in
      if n <? 10 then acc' else dec_aux f (n / 10) acc'
  end.

(** The decimal rendering of [n >= 0]. *)
Definition dec (n : Z) : pystr := dec_aux (Datatypes.S (Z.to_nat (Z.log2 n))) n [].

(** Two-digit, zero-padded ([%m], [%d], [%H], [%M], [%S]). *)
Definition pad2 (n : Z) : pystr := if n <? 10 then 48%N :: dec n else dec n.

(** [time.strftime("%Y-%m-%d", t)]. *)
Definition strftime_date (t : tm) : pystr :=
  dec (tm_year t) ++ [45%N] ++ pad2 (tm_mon t) ++ [45%N] ++ pad2 (tm_mday t).

(** [time.strftime("%Y-%m-%d %H:%M:%S", t)]. *)
Definition strftime_datetime (t : tm) : pystr :=
  strftime_date t ++ [32%N] ++ pad2 (tm_hour t) ++ [58%N] ++ pad2 (tm_min t)
  ++ [58%N] ++ pad2 (tm_sec t).

(** ** The five relations of [SCHEMAS] *)

Module User.
Record t := mk { user_id : pystr; user_name : pystr; hashed_password : pystr }.
End User.

Module Ledger.
Record t := mk { ledger_id : pystr; creator_id : pystr; ledger_name : pystr;
                 create_time : pystr }.
End Ledger.

(** ** SQLite values *)

(** A numeric SQL value: an [INTEGER] (a signed 64-bit integer) or a
    [REAL] (an IEEE-754 binary64 double). *)
Inductive sqlval := SInt (i : Z) | SReal (r : float).

(** The C conversion [(double)i] of a signed 64-bit integer, rounded to
    nearest even; Python's [float(i)] on such an [int] is the same. *)
Definition int_to_float (i : Z) : float :=
  if i =? - 2 ^ 63 then (- 0x1p63)%float
  else if i <? 0 then PrimFloat.opp (PrimFloat.of_uint63 (Uint63.of_Z (- i)))
  else PrimFloat.of_uint63 (Uint63.of_Z i).

(** The exact rational value of a finite double. *)
Definition float_value (r : float) : option Q :=
  match Prim2SF r with
  | S754_zero _ => Some 0%Q
  | S754_finite sg m e =>
      let a := if 0 <=? e then inject_Z (Zpos m * 2 ^ e)
               else Qmake (Zpos m) (Z.to_pos (2 ^ (- e))) in
      Some (if sg then Qopp a else a)
  | _ => None
  end.

(** The integer a double is equal to, when it is integral. *)
Definition float_int (r : float) : option Z :=
  match Prim2SF r with
  | S754_zero _ => Some 0
  | S754_finite sg m e =>
      let a := if 0 <=? e then Some (Zpos m * 2 ^ e)
               else if Zpos m mod 2 ^ (- e) =? 0 then Some (Zpos m / 2 ^ (- e)) else None in
      option_map (fun a => if sg then - a else a) a
  | _ => None
  end.

(** [sqlite3VdbeIntegerAffinity], which the [NUMERIC] affinity of a column
    applies to a [REAL] on insertion: a double equal to an integer [ix] with
    [SMALLEST_INT64 < ix < LARGEST_INT64] is stored as that [INTEGER]. *)
Definition numeric_affinity (v : sqlval) : sqlval :=
  match v with
  | SReal r =>
      match float_int r with
      | Some ix => if (- 2 ^ 63 <? ix) && (ix <? 2 ^ 63 - 1) then SInt ix else v
      | None => v
      end
  | SInt _ => v
  end.

(** The value stored in [price] ([NUMERIC(12,2)]) for the bound parameter:
    Python's [None] binds [NULL], a [float] a [REAL] and an [int] an
    [INTEGER]; [sqlite3_bind_double] turns a NaN into [NULL]; then the
    column's affinity applies. *)
Definition stored_price (price : option sqlval) : option sqlval :=
  match price with
  | None => None
  | Some (SReal r) => if PrimFloat.is_nan r then None else Some (numeric_affinity (SReal r))
  | Some v => Some (numeric_affinity v)
  end.

(** [price] holds the stored value, [None] being SQL [NULL]. *)
Module Tx.
Record t := mk { transaction_id : pystr; ledger_id : pystr; payer_id : pystr;
                 price : option sqlval; description : option pystr;
                 payment_time : pystr }.
End Tx.

(** Rows of each table in scan order; [user_ledgers] holds
    [(user_id, ledger_id)], [user_transactions] holds
    [(user_id, transaction_id)]. *)
Record db := mk_db {
  users : list User.t;
  ledgers : list Ledger.t;
  user_ledgers : list (pystr * pystr);
  transactions : list Tx.t;
  user_transactions : list (pystr * pystr) }.

Definition set_ledgers (s : db) (v : list Ledger.t) : db :=
  mk_db (users s) v (user_ledgers s) (transactions s) (user_transactions s).
Definition set_user_ledgers (s : db) (v : list (pystr * pystr)) : db :=
  mk_db (users s) (ledgers s) v (transactions s) (user_transactions s).
Definition set_transactions (s : db) (v : list Tx.t) : db :=
  mk_db (users s) (ledgers s) (user_ledgers s) v (user_transactions s).
Definition set_user_transactions (s : db) (v : list (pystr * pystr)) : db :=
  mk_db (users s) (ledgers s) (user_ledgers s) (transactions s) v.

(** ** Errors and the connection's transaction *)

Inductive error :=
| OperationalError (msg : string)
| IntegrityError (msg : string).

Inductive res (A : Type) := Ok (a : A) | Err (e : error).
Arguments Ok {A} a.
Arguments Err {A} e.

(** Statements run inside the implicit transaction of a connection: each
    one sees the state left by the previous, an exception aborts the rest. *)
Definition txn (A : Type) := db -> res (A * db).

Definition ret {A} (a : A) : txn A := fun s => Ok (a, s).
Definition raise {A} (e : error) : txn A := fun _ => Err e.
Definition bind {A B} (m : txn A) (k : A -> txn B) : txn B :=
  fun s => match m s with Ok (a, s') => k a s' | Err e => Err e end.
Notation "x <- m ;; k" := (bind m (fun x => k)) (at level 61, m at next level, right associativity).
Notation "m ;;; k" := (bind m (fun _ => k)) (at level 61, right associativity).

(** [with _connect(db_path) as conn: ...]: commit when the body returns,
    roll back when it raises (the exception then propagates). The state
    returned is the committed one, the only one other connections see. *)
Definition with_conn {A} (m : txn A) (s : db) : res A * db :=
  match m s with
  | Ok (a, s') => (Ok a, s')
  | Err e => (Err e, s)
  end.

(** ** Queries *)

Definition user_exists (s : db) (uid : pystr) : bool :=
  existsb (fun u => eqs (User.user_id u) uid) (users s).
Definition ledger_exists (s : db) (lid : pystr) : bool :=
  existsb (fun l => eqs (Ledger.ledger_id l) lid) (ledgers s).
Definition tx_exists (s : db) (tid : pystr) : bool :=
  existsb (fun t => eqs (Tx.transaction_id t) tid) (transactions s).
Definition pair_in (p : pystr * pystr) (rel : list (pystr * pystr)) : bool :=
  existsb (fun q => eqs (fst q) (fst p) && eqs (snd q) (snd p)) rel.

(** [SELECT ... FROM users WHERE user_id = ? LIMIT 1]. *)
Definition select_user (s : db) (uid : pystr) : option User.t :=
  find (fun u => eqs (User.user_id u) uid) (users s).
(** [SELECT ... FROM ledgers WHERE ledger_id = ? LIMIT 1]. *)
Definition select_ledger (s : db) (lid : pystr) : option Ledger.t :=
  find (fun l => eqs (Ledger.ledger_id l) lid) (ledgers s).

(** ** INSERT statements, with the constraints of [SCHEMAS] checked in
    SQLite's order: NOT NULL, PRIMARY KEY, then FOREIGN KEY
    ([PRAGMA foreign_keys = ON] in [_connect]). *)

Definition fk_failed : error := IntegrityError "FOREIGN KEY constraint failed".

Definition insert_user (r : User.t) : txn unit := fun s =>
  if user_exists s (User.user_id r)
  then Err (IntegrityError "UNIQUE constraint failed: users.user_id")
  else Ok (tt, mk_db (users s ++ [r]) (ledgers s) (user_ledgers s) (transactions s)
                   (user_transactions s)).

Definition insert_ledger (r : Ledger.t) : txn unit := fun s =>
  if ledger_exists s (Ledger.ledger_id r)
  then Err (IntegrityError "UNIQUE constraint failed: ledgers.ledger_id")
  else if negb (user_exists s (Ledger.creator_id r)) then Err fk_failed
  else Ok (tt, set_ledgers s (ledgers s ++ [r])).

Definition insert_user_ledger (uid lid : pystr) : txn unit := fun s =>
  if pair_in (uid, lid) (user_ledgers s)
  then Err (IntegrityError "UNIQUE constraint failed: user_ledgers.user_id, user_ledgers.ledger_id")
  else if negb (user_exists s uid) || negb (ledger_exists s lid) then Err fk_failed
  else Ok (tt, set_user_ledgers s (user_ledgers s ++ [(uid, lid)])).

(** [r] carries the bound parameters; the row stored has [price] after
    binding and affinity. *)
Definition insert_transaction (r : Tx.t) : txn unit := fun s =>
  match stored_price (Tx.price r) with
  | None => Err (IntegrityError "NOT NULL constraint failed: transactions.price")
  | Some p =>
      if tx_exists s (Tx.transaction_id r)
      then Err (IntegrityError "UNIQUE constraint failed: transactions.transaction_id")
      else if negb (ledger_exists s (Tx.ledger_id r)) || negb (user_exists s (Tx.payer_id r))
      then Err fk_failed
      else Ok (tt, set_transactions s (transactions s ++
             [Tx.mk (Tx.transaction_id r) (Tx.ledger_id r) (Tx.payer_id r) (Some p)
                    (Tx.description r) (Tx.payment_time r)]))
  end.

Definition insert_user_transaction (uid tid : pystr) : txn unit := fun s =>
  if pair_in (uid, tid) (user_transactions s)
  then Err (IntegrityError "UNIQUE constraint failed: user_transactions.user_id, user_transactions.transaction_id")
  else if negb (user_exists s uid) || negb (tx_exists s tid) then Err fk_failed
  else Ok (tt, set_user_transactions s (user_transactions s ++ [(uid, tid)])).

Definition query {A} (f : db -> A) : txn A := fun s => Ok (f s, s).

(** ** Operations *)

(** [register_user]. *)
Definition register_user (ts_ms : Z) (urand2 urand6 : list byte)
    (user_name hashed_password : pystr) (s : db) : res pystr * db :=
  let user_id := uuid7 ts_ms urand2 urand6 in
  with_conn (insert_user (User.mk user_id user_name hashed_password) ;;; ret user_id) s.

(** [login]: the first row with that [user_name] (a table scan in rowid
    order under [LIMIT 1]), its [user_id] when the hashes are equal. *)
Definition login (s : db) (user_name hashed_password : pystr) : option pystr :=
  match find (fun u => eqs (User.user_name u) user_name) (users s) with
  | None => None
  | Some u => if eqs (User.hashed_password u) hashed_password then Some (User.user_id u) else None
  end.

(** [" 的账本 "]. *)
Definition ledger_word : pystr := [32; 30340; 36134; 26412; 32]%N.

(** [not ledger_name or ledger_name.strip() == ""]. *)
Definition blank_name (ledger_name : option pystr) : bool :=
  match ledger_name with
  | None => true
  | Some [] => true
  | Some n => match py_strip n with [] => true | _ => false end
  end.

(** [add_ledger]: [uuid7()] reads [ts_ms] and the two random byte strings,
    the two [time.gmtime()] calls read [now1] and [now2]. *)
Definition add_ledger (ts_ms : Z) (urand2 urand6 : list byte) (now1 now2 : tm)
    (user_id : pystr) (ledger_name : option pystr) (s : db) : res pystr * db :=
  let ledger_id := uuid7 ts_ms urand2 urand6 in
  let now_date := strftime_date now1 in
  let now_datetime := strftime_datetime now2 in
  with_conn (
    row <- query (fun s => select_user s user_id) ;;
    match row with
    | None => raise (OperationalError "user_id not found")
    | Some u =>
        let creator_name := User.user_name u in
        let name := if blank_name ledger_name
                  then creator_name ++ ledger_word ++ now_date
                  else match ledger_name with Some n => n | None => [] end in
        insert_ledger (Ledger.mk ledger_id user_id name now_datetime) ;;;
        ret ledger_id
    end) s.

(** [add_transaction]: [now] is the [time.gmtime()] reading, used when no
    [payment_time] is passed; [price] is the SQL value Python binds for the
    argument ([None], a [float] or a 64-bit [int]). *)
Definition add_transaction (ts_ms : Z) (urand2 urand6 : list byte) (now : tm)
    (ledger_id payer_id : pystr) (price : option sqlval) (description : option pystr)
    (payment_time : option pystr) (s : db) : res pystr * db :=
  let tx_id := uuid7 ts_ms urand2 urand6 in
  let payment_time := match payment_time with None => strftime_date now | Some p => p end in
  with_conn (
    row <- query (fun s => select_ledger s ledger_id) ;;
    match row with
    | None => raise (OperationalError "ledger_id not found")
    | Some _ =>
        insert_transaction (Tx.mk tx_id ledger_id payer_id price description payment_time) ;;;
        insert_user_transaction payer_id tx_id ;;;
        ret tx_id
    end) s.

(** ** SQLite's [SUM] aggregate ([sumStep] and [sumFinalize] of [func.c])

    Its context: a double running sum [rSum] (and the error term [rErr] of
    the compensated summation), the exact 64-bit sum [iSum], the count of
    non-[NULL] inputs, [approx] (a non-integer was seen, or the integer sum
    overflowed) and [ovrfl] (integer overflow). *)
Record sum_ctx := mk_sum {
  rSum : float; rErr : float; iSum : Z; cnt : nat; approx : bool; ovrfl : bool }.

Definition sum_init : sum_ctx := mk_sum 0 0 0 0 false false.

(** The two implementations of [SUM] in use: the plain one of SQLite up to
    3.42, and the Kahan-Babuska-Neumaier one of SQLite 3.43 onwards. *)
Inductive sqlite_sum := SumPlain | SumKBN.

(** [sqlite3AddInt64] succeeds: the sum is a signed 64-bit integer. *)
Definition int64_ok (i : Z) : bool := (- 2 ^ 63 <=? i) && (i <? 2 ^ 63).

(** [sumStep] up to SQLite 3.42 on a non-[NULL] value. *)
Definition plain_step (p : sum_ctx) (v : sqlval) : sum_ctx :=
  match v with
  | SInt i =>
      let r := (rSum p + int_to_float i)%float in
      if negb (approx p || ovrfl p) then
        if int64_ok (iSum p + i) then mk_sum r (rErr p) (iSum p + i) (S (cnt p)) false false
        else mk_sum r (rErr p) (iSum p) (S (cnt p)) true true
      else mk_sum r (rErr p) (iSum p) (S (cnt p)) (approx p) (ovrfl p)
  | SReal x => mk_sum (rSum p + x)%float (rErr p) (iSum p) (S (cnt p)) true (ovrfl p)
  end.

(** [kahanBabuskaNeumaierStep]. *)
Definition kbn_step (p : sum_ctx) (r : float) : sum_ctx :=
  let s := rSum p in
  let t := (s + r)%float in
  let e := if PrimFloat.ltb (PrimFloat.abs r) (PrimFloat.abs s) then ((s - t) + r)%float
           else ((r - t) + s)%float in
  mk_sum t (rErr p + e)%float (iSum p) (cnt p) (approx p) (ovrfl p).

(** [iVal<=-4503599627370496LL || iVal>=+4503599627370496LL]: the integer
    is split as [iBig + iSm] with [iSm = iVal % 16384] (C's truncating
    remainder) before its conversion to double. *)
Definition kbn_big (i : Z) : bool := (i <=? - 4503599627370496) || (4503599627370496 <=? i).

(** [kahanBabuskaNeumaierStepInt64]. *)
Definition kbn_step_int (p : sum_ctx) (i : Z) : sum_ctx :=
  if kbn_big i then
    let sm := Z.rem i 16384 in kbn_step (kbn_step p (int_to_float (i - sm))) (int_to_float sm)
  else kbn_step p (int_to_float i).

(** [kahanBabuskaNeumaierInit]. *)
Definition kbn_init (p : sum_ctx) (i : Z) : sum_ctx :=
  let '(r, e) := if kbn_big i then let sm := Z.rem i 16384 in (int_to_float (i - sm), int_to_float sm)
                 else (int_to_float i, 0%float) in
  mk_sum r e (iSum p) (cnt p) (approx p) (ovrfl p).

Definition set_flags (p : sum_ctx) (a o : bool) : sum_ctx :=
  mk_sum (rSum p) (rErr p) (iSum p) (cnt p) a o.

(** [sumStep] from SQLite 3.43 on a non-[NULL] value. *)
Definition kbn_sum_step (p0 : sum_ctx) (v : sqlval) : sum_ctx :=
  let p := mk_sum (rSum p0) (rErr p0) (iSum p0) (S (cnt p0)) (approx p0) (ovrfl p0) in
  if negb (approx p) then
    match v with
    | SReal r => kbn_step (set_flags (kbn_init p (iSum p)) true (ovrfl p)) r
    | SInt i =>
        if int64_ok (iSum p + i)
        then mk_sum (rSum p) (rErr p) (iSum p + i) (cnt p) (approx p) (ovrfl p)
        else kbn_step_int (set_flags (kbn_init (set_flags p (approx p) true) (iSum p)) true true) i
    end
  else
    match v with
    | SInt i => kbn_step_int p i
    | SReal r => kbn_step (set_flags p (approx p) false) r
    end.

Definition sum_step (v : sqlite_sum) : sum_ctx -> sqlval -> sum_ctx :=
  match v with SumPlain => plain_step | SumKBN => kbn_sum_step end.

(** [sqlite3_result_double]: a NaN result is [NULL]. *)
Definition result_double (r : float) : option sqlval :=
  if PrimFloat.is_nan r then None else Some (SReal r).

Definition integer_overflow : error := OperationalError "integer overflow".

(** [sumFinalize]: [NULL] when no value was summed; the integer sum when
    no non-integer was seen and it did not overflow. *)
Definition sum_final (v : sqlite_sum) (p : sum_ctx) : res (option sqlval) :=
  if (cnt p =? 0)%nat then Ok None
  else match v with
  | SumPlain =>
      if ovrfl p then Err integer_overflow
      else if approx p then Ok (result_double (rSum p))
      else Ok (Some (SInt (iSum p)))
  | SumKBN =>
      if approx p then
        if ovrfl p then Err integer_overflow
        else if PrimFloat.is_nan (rErr p) || PrimFloat.is_infinity (rErr p)
        then Ok (result_double (rSum p))
        else Ok (result_double (rSum p + rErr p)%float)
      else Ok (Some (SInt (iSum p)))
  end.

(** The aggregation loop: [sumStep] on each row, [NULL]s skipped. *)
Definition sum_fold (v : sqlite_sum) (col : list (option sqlval)) (p : sum_ctx) : sum_ctx :=
  fold_left (fun p x => match x with None => p | Some y => sum_step v p y end) col p.

(** [SUM] over a column. *)
Definition sql_sum (v : sqlite_sum) (col : list (option sqlval)) : res (option sqlval) :=
  sum_final v (sum_fold v col sum_init).

(** The [price] column of the rows with that [ledger_id], in scan order. *)
Definition ledger_prices (s : db) (ledger_id : pystr) : list (option sqlval) :=
  map Tx.price (filter (fun t => eqs (Tx.ledger_id t) ledger_id) (transactions s)).

(** Python's [float(x)] on a value the [sqlite3] module returns. *)
Definition py_float (x : sqlval) : float :=
  match x with SInt i => int_to_float i | SReal r => r end.

(** [compute_expense] under the [SUM] of SQLite version [v]:
    [SELECT COALESCE(SUM(price), 0) FROM transactions WHERE ledger_id = ?]
    yields one row (or raises), and [float(row[0])] is returned. *)
Definition compute_expense (v : sqlite_sum) (s : db) (ledger_id : pystr) : res float :=
  match sql_sum v (ledger_prices s ledger_id) with
  | Err e => Err e
  | Ok total =>
      let row : option sqlval := Some (match total with None => SInt 0 | Some x => x end) in
      Ok (match row with Some x => py_float x | None => 0%float end)
  end.

(** [link_user_to_ledger]. *)
Definition link_user_to_ledger (ledger_id user_id : pystr) (s : db) : res unit * db :=
  with_conn (insert_user_ledger user_id ledger_id) s.

Record ledger_info := mk_info {
  info_ledger_name : pystr; involved_user : list pystr; created_date : pystr }.

(** The ["MM-YY"] rendering of [create_time] in [get_ledger_info]. *)
Definition created_date_of (create_time : pystr) : pystr :=
  let s := py_strip create_time in
  let yymm := if (7 <=? length s)%nat then firstn 7 s else [] in
  if (length yymm =? 7)%nat && (nth 4 yymm 0 =? 45)%N then
    let yyyy := firstn 4 yymm in
    let mm := sl 5 7 yymm in
    mm ++ [45%N] ++ skipn (length yyyy - 2) yyyy
  else [].

(** [get_ledger_info]. *)
Definition get_ledger_info (s : db) (ledger_id : pystr) : res ledger_info :=
  match select_ledger s ledger_id with
  | None => Err (OperationalError "ledger_id not found")
  | Some l =>
      let users := set_of (map fst (filter (fun p => eqs (snd p) ledger_id) (user_ledgers s))) in
      let users := set_add (Ledger.creator_id l) users in
      Ok (mk_info (Ledger.ledger_name l) (sorted users) (created_date_of (Ledger.create_time l)))
  end.

Record user_info := mk_uinfo { info_user_name : pystr; info_ledgers : list ledger_info }.

(** The loop of [get_user_info] over [sorted(all_ledgers)]: an
    [OperationalError] skips the ledger, any other error propagates. *)
Fixpoint collect_infos (s : db) (lids : list pystr) : res (list ledger_info) :=
  match lids with
  | [] => Ok []
  | lid :: rest =>
      match get_ledger_info s lid with
      | Ok i => match collect_infos s rest with Ok is => Ok (i :: is) | Err e => Err e end
      | Err (OperationalError _) => collect_infos s rest
      | Err e => Err e
      end
  end.

(** [get_user_info]. *)
Definition get_user_info (s : db) (user_id : pystr) : res user_info :=
  match select_user s user_id with
  | None => Err (OperationalError "user_id not found")
  | Some u =>
      let creator_ledgers := set_of (map Ledger.ledger_id
                             (filter (fun l => eqs (Ledger.creator_id l) user_id) (ledgers s))) in
      let joined_ledgers := set_of (map snd (filter (fun p => eqs (fst p) user_id) (user_ledgers s))) in
      let all_ledgers := set_union creator_ledgers joined_ledgers in
      match collect_infos s (sorted all_ledgers) with
      | Ok infos => Ok (mk_uinfo (User.user_name u) infos)
      | Err e => Err e
      end
  end.

(** ** The worked example of the specification *)

Definition empty_db : db := mk_db [] [] [] [] [].
Definition b2 : list byte := [x00; x00].
Definition b6 : list byte := [x00; x00; x00; x00; x00; x00].
Definition day : tm := mk_tm 2025 10 17 9 30 0.

Definition example_run : option (res float * ledger_info * ledger_info * option pystr) :=
  match register_user 1000 b2 b6 (txt "Alice") (txt "h1") empty_db with
  | (Ok a, s1) =>
    match register_user 2000 b2 b6 (txt "Bob") (txt "h2") s1 with
    | (Ok b, s2) =>
      match add_ledger 3000 b2 b6 day day a None s2 with
      | (Ok l, s3) =>
        match add_transaction 4000 b2 b6 day l a (Some (SReal 12.5)) (Some (txt "lunch")) None s3 with
        | (Ok _, s4) =>
          match get_ledger_info s4 l, link_user_to_ledger l b s4 with
          | Ok i1, (Ok _, s5) =>
            match get_ledger_info s5 l with
            | Ok i2 => Some (compute_expense SumKBN s5 l, i1, i2, login s5 (txt "Bob") (txt "h2"))
            | _ => None
            end
          | _, _ => None
          end
        | _ => None
        end
      | _ => None
      end
    | _ => None
    end
  | _ => None
  end.

(** A valid [time.gmtime()] reading with a four-digit year. *)
Definition valid_tm (t : tm) : bool :=
  (1000 <=? tm_year t) && (tm_year t <=? 9999) && (1 <=? tm_mon t) && (tm_mon t <=? 12)
  && (1 <=? tm_mday t) && (tm_mday t <=? 31) && (0 <=? tm_hour t) && (tm_hour t <=? 23)
  && (0 <=? tm_min t) && (tm_min t <=? 59) && (0 <=? tm_sec t) && (tm_sec t <=? 61).

Definition is_digit (c : N) : bool := ((48 <=? c) && (c <=? 57))%N.

(** Text of the form ["YYYY-MM-DD HH:MM:SS"]. *)
Definition datetime_form (x : pystr) : bool :=
  (length x =? 19)%nat &&
  forallb (fun i => let c := nth i x 0%N in
                  match i with
                  | 4 | 7 => (c =? 45)%N
                  | 10 => (c =? 32)%N
                  | 13 | 16 => (c =? 58)%N
                  | _ => is_digit c
                  end%nat) (seq 0 19).

(** The month rendering as the claim words it: the first 7 characters of
    the stored text, with a dash as 5th character. *)
Definition spec_created_date (create_time : pystr) : pystr :=
  let y := firstn 7 create_time in
  if (length y =? 7)%nat && (nth 4 y 0 =? 45)%N then sl 5 7 y ++ [45%N] ++ sl 2 4 y else [].

(** The month rendering as the code computes it, stated directly: after
    [strip()], at least 7 characters and a dash as 5th character give
    characters 6-7, a dash and characters 3-4; anything else gives [""]. *)
Definition created_month (create_time : pystr) : pystr :=
  let t := py_strip create_time in
  if (7 <=? length t)%nat && (nth 4 t 0 =? 45)%N then sl 5 7 t ++ [45%N] ++ sl 2 4 t else [].

(** A small store: one user, one ledger with one transaction. *)
Definition demo_db : db :=
  mk_db [User.mk (txt "A") (txt "Alice") (txt "h1")]
        [Ledger.mk (txt "L1") (txt "A") (txt "Trip") (txt "2025-09-01 10:00:00")]
        []
        [Tx.mk (txt "T1") (txt "L1") (txt "A") (Some (SReal 12.5)) None (txt "2025-09-02")]
        [(txt "A", txt "T1")].

(** [demo_db] with a space before the stored [create_time]. *)
Definition spaced_db : db :=
  mk_db (users demo_db)
        [Ledger.mk (txt "L1") (txt "A") (txt "Trip") (txt " 2025-09-01 10:00:00")]
        [] (transactions demo_db) (user_transactions demo_db).

(** The 64 high bits of the UUID: [(ts_ms >> 12) mod 2^48], the version
    nibble [7], then [ts_ms mod 2^12]. *)
Definition uuid7_msb (ts_ms : Z) : Z :=
  ((ts_ms / 2 ^ 12) mod 2 ^ 48) * 2 ^ 16 + 7 * 2 ^ 12 + ts_ms mod 2 ^ 12.

(** The state after a successful [add_transaction]: the transaction row and
    the payer's link, appended together. *)
Definition with_transaction (s : db) (row : Tx.t) (payer_id : pystr) : db :=
  set_user_transactions (set_transactions s (transactions s ++ [row]))
    (user_transactions s ++ [(payer_id, Tx.transaction_id row)]).

(** A price column of [INTEGER]s and [NULL]s: its integers, in order. *)
Fixpoint int_column (col : list (option sqlval)) : option (list Z) :=
  match col with
  | [] => Some []
  | None :: col' => int_column col'
  | Some (SInt i) :: col' => option_map (cons i) (int_column col')
  | Some (SReal _) :: _ => None
  end.

(** Every running total of [zs], starting from [acc], is a signed 64-bit
    integer. *)
Fixpoint running_ok (acc : Z) (zs : list Z) : bool :=
  match zs with
  | [] => true
  | z :: zs' => int64_ok (acc + z) && running_ok (acc + z) zs'
  end.

(** The exact arithmetic sum of the stored values of a column ([NULL]
    counting 0), when they are all finite. *)
Fixpoint exact_sum (col : list (option sqlval)) : option Q :=
  match col with
  | [] => Some 0%Q
  | None :: col' => exact_sum col'
  | Some x :: col' =>
      match (match x with SInt i => Some (inject_Z i) | SReal r => float_value r end), exact_sum col' with
      | Some q, Some t => Some (q + t)%Q
      | _, _ => None
      end
  end.

(** Two transactions of 0.1 and 0.2 (the doubles nearest to them) in
    ledger L1. *)
Definition cents_db : db :=
  mk_db (users demo_db) (ledgers demo_db) []
        [Tx.mk (txt "T1") (txt "L1") (txt "A") (Some (SReal 0x1.999999999999ap-4)) None (txt "2025-09-02");
         Tx.mk (txt "T2") (txt "L1") (txt "A") (Some (SReal 0x1.999999999999ap-3)) None (txt "2025-09-02")]
        [(txt "A", txt "T1"); (txt "A", txt "T2")].

(** Two transactions of [2^62] in ledger L1. *)
Definition big_db : db :=
  mk_db (users demo_db) (ledgers demo_db) []
        [Tx.mk (txt "T1") (txt "L1") (txt "A") (Some (SInt (2 ^ 62))) None (txt "2025-09-02");
         Tx.mk (txt "T2") (txt "L1") (txt "A") (Some (SInt (2 ^ 62))) None (txt "2025-09-02")]
        [(txt "A", txt "T1"); (txt "A", txt "T2")].

(** Every transaction row references an existing ledger: the
    [FOREIGN KEY (ledger_id)] of [transactions], checked on every write
    through [_connect] and kept on deletion by [ON DELETE CASCADE]. *)
Definition fk_transactions_ok (s : db) : bool :=
  forallb (fun t => ledger_exists s (Tx.ledger_id t)) (transactions s).

Definition unique_user_ledgers : error :=
  IntegrityError "UNIQUE constraint failed: user_ledgers.user_id, user_ledgers.ledger_id".

Definition str_lt (a b : pystr) : Prop := py_lt a b = true.

(** The ledger summaries [get_user_info] keeps for [lids]: those for which
    [get_ledger_info] does not raise. *)
Definition kept_infos (s : db) (lids : list pystr) : list ledger_info :=
  flat_map (fun lid => match get_ledger_info s lid with Ok i => [i] | Err _ => [] end) lids.



(** ** The rest of the module *)

(** [link_user_to_transaction]. *)
Definition link_user_to_transaction (transaction_id user_id : pystr) (s : db) : res unit * db :=
  with_conn (insert_user_transaction user_id transaction_id) s.

(** Every [FOREIGN KEY] of [SCHEMAS] holds. *)
Definition fk_ok (s : db) : bool :=
  forallb (fun l => user_exists s (Ledger.creator_id l)) (ledgers s)
  && forallb (fun p => user_exists s (fst p) && ledger_exists s (snd p)) (user_ledgers s)
  && forallb (fun t => ledger_exists s (Tx.ledger_id t) && user_exists s (Tx.payer_id t)) (transactions s)
  && forallb (fun p => user_exists s (fst p) && tx_exists s (snd p)) (user_transactions s).

(** No two elements equal under [eqb]. *)
Fixpoint uniq {A} (eqb : A -> A -> bool) (l : list A) : bool :=
  match l with
  | [] => true
  | x :: l' => negb (existsb (fun y => eqb y x) l') && uniq eqb l'
  end.

Definition pair_eqb (q p : pystr * pystr) : bool := eqs (fst q) (fst p) && eqs (snd q) (snd p).

(** Every [PRIMARY KEY] of [SCHEMAS] holds. *)
Definition keys_ok (s : db) : bool :=
  uniq eqs (map User.user_id (users s)) && uniq eqs (map Ledger.ledger_id (ledgers s))
  && uniq pair_eqb (user_ledgers s) && uniq eqs (map Tx.transaction_id (transactions s))
  && uniq pair_eqb (user_transactions s).

(** Both kinds of constraints. *)
Definition db_ok (s : db) : bool := fk_ok s && keys_ok s.

Definition is_hex (c : N) : bool := ((48 <=? c) && (c <=? 57))%N || ((97 <=? c) && (c <=? 102))%N.

(** Text of the canonical form [8-4-4-4-12] of lower-case hex digits. *)
Definition uuid_form (x : pystr) : bool :=
  (length x =? 36)%nat &&
  forallb (fun i => let c := nth i x 0%N in
                    match i with
                    | 8 | 13 | 18 | 23 => (c =? 45)%N
                    | _ => is_hex c
                    end%nat) (seq 0 36).

(** A statement sequence that keeps [P] on every successful run. *)
Definition keeps (P : db -> bool) {A} (m : txn A) : Prop :=
  forall s a s', P s = true -> m s = Ok (a, s') -> P s' = true.

(** The ["MM-YY"] that [get_ledger_info] should show for a [create_time]
    written by [add_ledger] at [t]. *)
Definition month_of (t : tm) : pystr := pad2 (tm_mon t) ++ [45%N] ++ skipn 2 (dec (tm_year t)).

Definition unique_user_transactions : error :=
  IntegrityError "UNIQUE constraint failed: user_transactions.user_id, user_transactions.transaction_id".

(** * Lemmas *)

Example uuid7_ex :
  uuid7 1760659200000 [x01; x02] [x03; x04; x05; x06; x07; x08]
  = txt "0000199e-f775-7800-0102-030405060708".
Proof. vm_compute. reflexivity. Qed.

Lemma eqs_true (a b : pystr) : eqs a b = true <-> a = b.
Proof. unfold eqs; destruct (list_eq_dec N.eq_dec a b); split; congruence. Qed.

Example strftime_datetime_ex :
  strftime_datetime (mk_tm 2025 9 7 8 5 0) = txt "2025-09-07 08:05:00".
Proof. vm_compute. reflexivity. Qed.

Example example_run_ok :
  example_run =
  Some (Ok 12.5%float,
        mk_info (txt "Alice" ++ ledger_word ++ txt "2025-10-17")
                [uuid7 1000 b2 b6] (txt "10-25"),
        mk_info (txt "Alice" ++ ledger_word ++ txt "2025-10-17")
                [uuid7 1000 b2 b6; uuid7 2000 b2 b6] (txt "10-25"),
        Some (uuid7 2000 b2 b6)).
Proof. vm_compute. reflexivity. Qed.

(** ** Bit-level facts about [uuid7_int] *)

Lemma lor_shiftl_low (a b k : Z) :
  0 <= k -> 0 <= a < 2 ^ k -> Z.lor (Z.shiftl b k) a = b * 2 ^ k + a.
Proof.
  intros Hk Ha.
  assert (Hdis : Z.land (Z.shiftl b k) a = 0).
  { apply Z.bits_inj'; intros i Hi.
    rewrite Z.land_spec, Z.testbit_0_l, Z.shiftl_spec by lia.
    destruct (Z.lt_ge_cases i k) as [Hlt | Hge].
    - rewrite Z.testbit_neg_r by lia; reflexivity.
    - destruct (Z.eq_dec a 0) as [-> | Hnz].
      + rewrite Z.testbit_0_l, andb_false_r; reflexivity.
      + rewrite (Z.bits_above_log2 a i); [rewrite andb_false_r; reflexivity | lia |].
        apply Z.log2_lt_pow2; [lia |].
        apply Z.lt_le_trans with (2 ^ k); [lia | apply Z.pow_le_mono_r; lia]. }
  rewrite <- Z.lxor_lor by exact Hdis.
  rewrite <- Z.add_nocarry_lxor by exact Hdis.
  rewrite Z.shiftl_mul_pow2 by lia; reflexivity.
Qed.

Lemma from_bytes_big_range (bs : list byte) :
  0 <= from_bytes_big bs < 2 ^ (8 * Z.of_nat (length bs)).
Proof.
  unfold from_bytes_big.
  assert (Hgen : forall acc, 0 <= acc ->
    0 <= fold_left (fun acc b => acc * 256 + Z.of_N (Byte.to_N b)) bs acc
      < (acc + 1) * 2 ^ (8 * Z.of_nat (length bs))).
  { induction bs as [| b bs IH]; intros acc Hacc; cbn [fold_left List.length].
    - simpl; lia.
    - assert (Hb : (Byte.to_N b < 256)%N) by (destruct b; vm_compute; reflexivity).
      specialize (IH (acc * 256 + Z.of_N (Byte.to_N b))).
      rewrite Nat2Z.inj_succ, Z.mul_succ_r, (Z.add_comm (8 * _) 8).
      rewrite Z.pow_add_r by lia.
      assert (0 < 2 ^ (8 * Z.of_nat (length bs))) by (apply Z.pow_pos_nonneg; lia).
      change (2 ^ 8) with 256.
      assert (Hb' : 0 <= Z.of_N (Byte.to_N b) < 256) by lia.
      assert (Hle : acc * 256 + Z.of_N (Byte.to_N b) + 1 <= (acc + 1) * 256) by lia.
      destruct IH as [IH1 IH2]; [lia |]. split; [exact IH1 |].
      eapply Z.lt_le_trans; [exact IH2 |].
      rewrite Z.mul_assoc. apply Z.mul_le_mono_nonneg_r; lia. }
  specialize (Hgen 0 ltac:(lia)); lia.
Qed.

Lemma uuid7_int_eq (ts_ms : Z) (urand2 urand6 : list byte) :
  length urand2 = 2%nat -> length urand6 = 6%nat ->
  uuid7_int ts_ms urand2 urand6
  = uuid7_msb ts_ms * 2 ^ 64
    + (from_bytes_big urand2 * 2 ^ 48 + from_bytes_big urand6).
Proof.
  intros H2 H6.
  pose proof (from_bytes_big_range urand2) as Ra.
  pose proof (from_bytes_big_range urand6) as Rb.
  rewrite H2 in Ra; rewrite H6 in Rb; simpl in Ra, Rb.
  unfold uuid7_int, uuid7_msb.
  change 0xFFFFFFFF with (Z.ones 32); change 0xFFFF with (Z.ones 16);
  change 0xFFF with (Z.ones 12).
  rewrite !Z.land_ones, !Z.shiftr_div_pow2 by lia.
  assert (Hl : 0 <= ts_ms mod 2 ^ 12 < 2 ^ 12) by (apply Z.mod_pos_bound; lia).
  assert (Hm : 0 <= ts_ms / 2 ^ 12 mod 2 ^ 16 < 2 ^ 16) by (apply Z.mod_pos_bound; lia).
  change 0x7000 with (Z.shiftl 7 12).
  rewrite (lor_shiftl_low (ts_ms mod 2 ^ 12) 7 12) by lia.
  replace (Z.shiftl ((ts_ms / 2 ^ 28) mod 2 ^ 32) 32)
    with (Z.shiftl (Z.shiftl ((ts_ms / 2 ^ 28) mod 2 ^ 32) 16) 16)
    by (rewrite Z.shiftl_shiftl by lia; reflexivity).
  rewrite <- Z.shiftl_lor.
  rewrite (lor_shiftl_low _ _ 16) by lia.
  rewrite (lor_shiftl_low _ _ 16) by lia.
  rewrite (lor_shiftl_low _ _ 48) by lia.
  rewrite (lor_shiftl_low _ _ 64).
  2: lia.
  2: { split; [lia |]. change (2 ^ 64) with (2 ^ 16 * 2 ^ 48). nia. }
  assert (Hid : (ts_ms / 2 ^ 28) mod 2 ^ 32 * 2 ^ 16 + (ts_ms / 2 ^ 12) mod 2 ^ 16
                = (ts_ms / 2 ^ 12) mod 2 ^ 48).
  { replace (ts_ms / 2 ^ 28) with (ts_ms / 2 ^ 12 / 2 ^ 16)
      by (rewrite Z.div_div by lia; reflexivity).
    change (2 ^ 48) with (2 ^ 16 * 2 ^ 32).
    rewrite Z.rem_mul_r by lia. lia. }
  rewrite <- Hid. ring.
Qed.

Lemma uuid7_msb_range (ts_ms : Z) : 0 <= uuid7_msb ts_ms < 2 ^ 64.
Proof.
  unfold uuid7_msb.
  pose proof (Z.mod_pos_bound (ts_ms / 2 ^ 12) (2 ^ 48) ltac:(lia)).
  pose proof (Z.mod_pos_bound ts_ms (2 ^ 12) ltac:(lia)).
  lia.
Qed.

Lemma uuid7_int_range (ts_ms : Z) (urand2 urand6 : list byte) :
  length urand2 = 2%nat -> length urand6 = 6%nat ->
  0 <= uuid7_int ts_ms urand2 urand6 < 2 ^ 128.
Proof.
  intros H2 H6. rewrite uuid7_int_eq by assumption.
  pose proof (from_bytes_big_range urand2) as Ra.
  pose proof (from_bytes_big_range urand6) as Rb.
  rewrite H2 in Ra; rewrite H6 in Rb; simpl in Ra, Rb.
  pose proof (uuid7_msb_range ts_ms). lia.
Qed.

(** Within the 60 bits that the masks keep, [uuid7_msb] grows strictly with
    the timestamp. *)
Lemma uuid7_msb_mono (t1 t2 : Z) :
  0 <= t1 -> t1 < t2 -> t2 < 2 ^ 60 -> uuid7_msb t1 < uuid7_msb t2.
Proof.
  intros H0 H12 H2. unfold uuid7_msb.
  rewrite !(Z.mod_small (_ / 2 ^ 12) (2 ^ 48)).
  2, 3: split; [apply Z.div_pos; lia | apply Z.div_lt_upper_bound; lia].
  pose proof (Z.div_mod t1 (2 ^ 12) ltac:(lia)).
  pose proof (Z.div_mod t2 (2 ^ 12) ltac:(lia)).
  pose proof (Z.mod_pos_bound t1 (2 ^ 12) ltac:(lia)).
  pose proof (Z.mod_pos_bound t2 (2 ^ 12) ltac:(lia)).
  lia.
Qed.

(** ** Python string order on hexadecimal renderings *)

Lemma py_lt_irrefl (a : pystr) : py_lt a a = false.
Proof. induction a as [| x a IH]; simpl; [reflexivity |]. rewrite N.ltb_irrefl, N.eqb_refl; exact IH. Qed.

Lemma py_lt_app_same (p b1 b2 : pystr) : py_lt (p ++ b1) (p ++ b2) = py_lt b1 b2.
Proof. induction p as [| x p IH]; simpl; [reflexivity |]. rewrite N.ltb_irrefl, N.eqb_refl; exact IH. Qed.

Lemma py_lt_app_lt (a1 a2 b1 b2 : pystr) :
  length a1 = length a2 -> py_lt a1 a2 = true -> py_lt (a1 ++ b1) (a2 ++ b2) = true.
Proof.
  revert a2; induction a1 as [| x a1 IH]; intros [| y a2] Hl Hlt; simpl in *;
    try discriminate.
  destruct (x <? y)%N; [reflexivity |].
  destruct (x =? y)%N; [apply IH; congruence | discriminate].
Qed.

Lemma hex_chars_length (k : nat) (n : Z) : length (hex_chars k n) = k.
Proof.
  revert n; induction k as [| k IH]; intros n; simpl; [reflexivity |].
  rewrite length_app, IH; simpl; lia.
Qed.

Lemma hex_char_mono (a b : Z) :
  0 <= a -> a < b -> b < 16 -> (hex_char a <? hex_char b)%N = true.
Proof.
  intros Ha Hab Hb. apply N.ltb_lt. unfold hex_char.
  destruct (a <? 10) eqn:Ea, (b <? 10) eqn:Eb;
    rewrite ?Z.ltb_lt, ?Z.ltb_ge in Ea, Eb;
    apply N2Z.inj_lt; rewrite !Z2N.id by lia; lia.
Qed.

Lemma hex_chars_lt (k : nat) (n1 n2 : Z) :
  0 <= n1 -> n1 < n2 -> n2 < 16 ^ Z.of_nat k ->
  py_lt (hex_chars k n1) (hex_chars k n2) = true.
Proof.
  revert n1 n2; induction k as [| k IH]; intros n1 n2 H0 H12 H2.
  - simpl in H2; lia.
  - rewrite Nat2Z.inj_succ, Z.pow_succ_r in H2 by lia.
    simpl hex_chars.
    pose proof (Z.div_mod n1 16 ltac:(lia)).
    pose proof (Z.div_mod n2 16 ltac:(lia)).
    pose proof (Z.mod_pos_bound n1 16 ltac:(lia)).
    pose proof (Z.mod_pos_bound n2 16 ltac:(lia)).
    destruct (Z.lt_ge_cases (n1 / 16) (n2 / 16)) as [Hq | Hq].
    + apply py_lt_app_lt; [rewrite !hex_chars_length; reflexivity |].
      apply IH; [apply Z.div_pos; lia | exact Hq |].
      apply Z.div_lt_upper_bound; lia.
    + assert (Heq : n1 / 16 = n2 / 16).
      { assert (n1 / 16 <= n2 / 16) by (apply Z.div_le_mono; lia). lia. }
      rewrite Heq, py_lt_app_same. simpl.
      rewrite hex_char_mono; [reflexivity | lia | lia | lia].
Qed.

Lemma uuid_fmt_lt (h1 h2 : pystr) :
  length h1 = 32%nat -> length h2 = 32%nat ->
  py_lt (uuid_fmt h1) (uuid_fmt h2) = py_lt h1 h2.
Proof.
  intros L1 L2.
  do 32 (destruct h1 as [| ? h1]; [discriminate |]).
  do 32 (destruct h2 as [| ? h2]; [discriminate |]).
  destruct h1; [| discriminate]. destruct h2; [| discriminate].
  reflexivity.
Qed.

Lemma fmt_032x_small (n : Z) : 0 <= n < 2 ^ 128 -> fmt_032x n = hex_chars 32 n.
Proof.
  intros Hn. unfold fmt_032x, hex_len.
  destruct (n <=? 0) eqn:E; [reflexivity |].
  apply Z.leb_gt in E.
  assert (Hl : Z.log2 n < 128) by (apply Z.log2_lt_pow2; lia).
  assert (Hd : Z.log2 n / 4 < 32) by (apply Z.div_lt_upper_bound; lia).
  pose proof (Z.log2_nonneg n).
  pose proof (Z.div_pos (Z.log2 n) 4 ltac:(lia) ltac:(lia)).
  f_equal. lia.
Qed.

Lemma uuid_str_lt (n1 n2 : Z) :
  0 <= n1 -> n1 < n2 -> n2 < 2 ^ 128 -> py_lt (uuid_str n1) (uuid_str n2) = true.
Proof.
  intros H0 H12 H2. unfold uuid_str.
  rewrite !fmt_032x_small by lia.
  rewrite uuid_fmt_lt by apply hex_chars_length.
  apply hex_chars_lt; [lia | lia |]. exact H2.
Qed.


(** The high 48 bits of a [uuid7] integer hold [ts_ms >> 12], not [ts_ms]. *)
Lemma uuid7_high48 (ts_ms : Z) (urand2 urand6 : list byte) :
  length urand2 = 2%nat -> length urand6 = 6%nat ->
  Z.shiftr (uuid7_int ts_ms urand2 urand6) 80 = (ts_ms / 2 ^ 12) mod 2 ^ 48.
Proof.
  intros H2 H6. rewrite uuid7_int_eq by assumption.
  pose proof (from_bytes_big_range urand2) as Ra.
  pose proof (from_bytes_big_range urand6) as Rb.
  rewrite H2 in Ra; rewrite H6 in Rb; simpl in Ra, Rb.
  pose proof (Z.mod_pos_bound (ts_ms / 2 ^ 12) (2 ^ 48) ltac:(lia)).
  pose proof (Z.mod_pos_bound ts_ms (2 ^ 12) ltac:(lia)).
  rewrite Z.shiftr_div_pow2 by lia. unfold uuid7_msb.
  symmetry. apply Z.div_unique_pos with (from_bytes_big urand2 * 2 ^ 48 + from_bytes_big urand6
                         + (7 * 2 ^ 12 + ts_ms mod 2 ^ 12) * 2 ^ 64); lia.
Qed.

(** * Claims *)

(** C4 (code_bug).  The identifier generated at 2025-10-17T00:00:00Z
    ([ts_ms = 1760659200000]) with zero random bytes: its high 48 bits are
    [ts_ms >> 12], not the Unix time in milliseconds; the 12 low bits of
    [ts_ms] sit after the version nibble where random bits belong; and the
    two variant bits are not [10]. *)
Theorem uuid7_layout_at_2025_10_17 :
  let n := uuid7_int 1760659200000 b2 b6 in
  Z.shiftr n 80 = 1760659200000 / 2 ^ 12
  /\ Z.shiftr n 80 <> 1760659200000
  /\ Z.land (Z.shiftr n 76) 15 = 7
  /\ Z.land (Z.shiftr n 64) 0xFFF = 1760659200000 mod 2 ^ 12
  /\ Z.land (Z.shiftr n 62) 3 <> 2
  /\ uuid7 1760659200000 b2 b6 = txt "0000199e-f775-7800-0000-000000000000".
Proof. vm_compute. repeat split; try reflexivity; discriminate. Qed.

(** C5.  For timestamps within the 60 bits the masks of [uuid7] keep
    ([0 <= ts1 < ts2 < 2^60] milliseconds, i.e. from 1970 to far beyond any
    real clock), the later identifier is larger both as a 128-bit integer
    and as a string under Python's [<], whatever the random bytes. *)
Theorem uuid7_time_ordered (ts1 ts2 : Z) (r2 r6 r2' r6' : list byte) :
  length r2 = 2%nat -> length r6 = 6%nat ->
  length r2' = 2%nat -> length r6' = 6%nat ->
  0 <= ts1 -> ts1 < ts2 -> ts2 < 2 ^ 60 ->
  uuid7_int ts1 r2 r6 < uuid7_int ts2 r2' r6'
  /\ py_lt (uuid7 ts1 r2 r6) (uuid7 ts2 r2' r6') = true.
Proof.
  intros H2 H6 H2' H6' H0 H12 H60.
  assert (Hlt : uuid7_int ts1 r2 r6 < uuid7_int ts2 r2' r6').
  { rewrite !uuid7_int_eq by assumption.
    pose proof (from_bytes_big_range r2) as Ra.
    pose proof (from_bytes_big_range r6) as Rb.
    rewrite H2 in Ra; rewrite H6 in Rb; simpl in Ra, Rb.
    pose proof (from_bytes_big_range r2') as Ra'.
    pose proof (from_bytes_big_range r6') as Rb'.
    rewrite H2' in Ra'; rewrite H6' in Rb'; simpl in Ra', Rb'.
    pose proof (uuid7_msb_mono ts1 ts2 H0 H12 H60). lia. }
  split; [exact Hlt |].
  unfold uuid7. apply uuid_str_lt; [| exact Hlt |].
  - apply uuid7_int_range; assumption.
  - apply uuid7_int_range; assumption.
Qed.

Lemma uuid7_time_ordered_witness :
  (length [x12; x34] = 2%nat /\ length [x56; x78; x9a; xbc; xde; xf0] = 6%nat
   /\ length [xff; xff] = 2%nat /\ length b6 = 6%nat
   /\ 0 <= 1760659200000 /\ 1760659200000 < 1760659200001 /\ 1760659200001 < 2 ^ 60)
  /\ uuid7_int 1760659200000 [x12; x34] [x56; x78; x9a; xbc; xde; xf0]
     < uuid7_int 1760659200001 [xff; xff] b6
  /\ py_lt (uuid7 1760659200000 [x12; x34] [x56; x78; x9a; xbc; xde; xf0])
           (uuid7 1760659200001 [xff; xff] b6) = true.
Proof.
  split; [repeat split; reflexivity || lia |].
  apply uuid7_time_ordered; reflexivity || lia.
Defined.

Lemma select_ledger_exists (s : db) (lid : pystr) (l : Ledger.t) :
  select_ledger s lid = Some l -> ledger_exists s lid = true.
Proof.
  unfold select_ledger, ledger_exists. intros Hf.
  apply existsb_exists. exists l. split.
  - exact (proj1 (find_some _ _ Hf)).
  - exact (proj2 (find_some _ _ Hf)).
Qed.

Lemma tx_exists_app (l : list Tx.t) (r : Tx.t) (tid : pystr) :
  Tx.transaction_id r = tid ->
  existsb (fun t => eqs (Tx.transaction_id t) tid) (l ++ [r]) = true.
Proof.
  intros <-. rewrite existsb_app. simpl.
  unfold eqs. destruct list_eq_dec; [apply orb_true_r | congruence].
Qed.

Lemma user_exists_set_transactions (s : db) (v : list Tx.t) (u : pystr) :
  user_exists (set_transactions s v) u = user_exists s u.
Proof. reflexivity. Qed.

(** C1.  [add_transaction] on an absent ledger raises the not-found
    [OperationalError] and leaves the store as it was.  On an existing
    ledger, the committed state is either the old one (the call raised), or
    the old one plus exactly the new transaction row (its [payment_time] the
    current UTC date when none was passed) and the payer's
    [user_transactions] link: never the row without the link.  The call
    succeeds exactly when the row and the link satisfy the constraints. *)
Theorem add_transaction_all_or_nothing (ts_ms : Z) (r2 r6 : list byte) (now : tm)
    (lid payer : pystr) (price : option sqlval) (desc pt : option pystr) (s : db) :
  let tx_id := uuid7 ts_ms r2 r6 in
  let row := Tx.mk tx_id lid payer (stored_price price) desc
               (match pt with None => strftime_date now | Some p => p end) in
  let r := add_transaction ts_ms r2 r6 now lid payer price desc pt s in
  (select_ledger s lid = None -> r = (Err (OperationalError "ledger_id not found"), s))
  /\ (forall l, select_ledger s lid = Some l ->
      (stored_price price <> None /\ tx_exists s tx_id = false /\ user_exists s payer = true
       /\ pair_in (payer, tx_id) (user_transactions s) = false ->
       r = (Ok tx_id, with_transaction s row payer))
      /\ (~ (stored_price price <> None /\ tx_exists s tx_id = false /\ user_exists s payer = true
             /\ pair_in (payer, tx_id) (user_transactions s) = false) ->
          exists e, r = (Err e, s))).
Proof.
  cbv zeta. split.
  - intros Hn. unfold add_transaction, with_conn, bind, query. rewrite Hn. reflexivity.
  - intros l Hl. pose proof (select_ledger_exists s lid l Hl) as Hle.
    unfold add_transaction, with_conn, bind, query. rewrite Hl.
    unfold insert_transaction. simpl Tx.price; simpl Tx.transaction_id;
      simpl Tx.ledger_id; simpl Tx.payer_id.
    split.
    + intros (Hp & Hx & Hu & Hpair).
      destruct (stored_price price) as [q |]; [| congruence].
      rewrite Hx, Hle, Hu. cbn [negb orb].
      unfold insert_user_transaction. cbn [set_transactions user_transactions users].
      rewrite Hpair, user_exists_set_transactions, Hu.
      unfold tx_exists. cbn [transactions set_transactions]. rewrite tx_exists_app; reflexivity.
    + intros Hnot.
      destruct (stored_price price) as [q |]; [| eexists; reflexivity].
      destruct (tx_exists s (uuid7 ts_ms r2 r6)) eqn:Hx; [eexists; reflexivity |].
      rewrite Hle. cbn [negb orb].
      destruct (user_exists s payer) eqn:Hu; [| eexists; reflexivity]. cbn [negb orb].
      unfold insert_user_transaction. cbn [set_transactions user_transactions].
      destruct (pair_in (payer, uuid7 ts_ms r2 r6) (user_transactions s)) eqn:Hpair.
      * eexists; reflexivity.
      * exfalso. apply Hnot. repeat split; congruence.
Qed.

(** ** [SUM] over a column of [INTEGER]s *)

Lemma kbn_step_fields (p : sum_ctx) (r : float) :
  iSum (kbn_step p r) = iSum p /\ cnt (kbn_step p r) = cnt p
  /\ approx (kbn_step p r) = approx p /\ ovrfl (kbn_step p r) = ovrfl p.
Proof. unfold kbn_step. destruct (PrimFloat.ltb _ _); repeat split. Qed.

Lemma kbn_step_int_fields (p : sum_ctx) (i : Z) :
  iSum (kbn_step_int p i) = iSum p /\ cnt (kbn_step_int p i) = cnt p
  /\ approx (kbn_step_int p i) = approx p /\ ovrfl (kbn_step_int p i) = ovrfl p.
Proof.
  unfold kbn_step_int. destruct (kbn_big i); [| apply kbn_step_fields].
  destruct (kbn_step_fields p (int_to_float (i - Z.rem i 16384))) as (H1 & H2 & H3 & H4).
  destruct (kbn_step_fields (kbn_step p (int_to_float (i - Z.rem i 16384)))
              (int_to_float (Z.rem i 16384))) as (G1 & G2 & G3 & G4).
  repeat split; congruence.
Qed.

Lemma kbn_init_fields (p : sum_ctx) (i : Z) :
  iSum (kbn_init p i) = iSum p /\ cnt (kbn_init p i) = cnt p
  /\ approx (kbn_init p i) = approx p /\ ovrfl (kbn_init p i) = ovrfl p.
Proof. unfold kbn_init. destruct (kbn_big i); repeat split. Qed.

Lemma kbn_step_int_cnt p i : cnt (kbn_step_int p i) = cnt p.
Proof. apply kbn_step_int_fields. Qed.
Lemma kbn_step_int_iSum p i : iSum (kbn_step_int p i) = iSum p.
Proof. apply kbn_step_int_fields. Qed.
Lemma kbn_step_int_approx p i : approx (kbn_step_int p i) = approx p.
Proof. apply kbn_step_int_fields. Qed.
Lemma kbn_step_int_ovrfl p i : ovrfl (kbn_step_int p i) = ovrfl p.
Proof. apply kbn_step_int_fields. Qed.
Lemma kbn_init_cnt p i : cnt (kbn_init p i) = cnt p.
Proof. apply kbn_init_fields. Qed.
Lemma kbn_init_iSum p i : iSum (kbn_init p i) = iSum p.
Proof. apply kbn_init_fields. Qed.
Lemma kbn_init_approx p i : approx (kbn_init p i) = approx p.
Proof. apply kbn_init_fields. Qed.
Lemma kbn_init_ovrfl p i : ovrfl (kbn_init p i) = ovrfl p.
Proof. apply kbn_init_fields. Qed.

Create Rewrite HintDb sum_fields.
#[local] Hint Rewrite kbn_step_int_cnt kbn_step_int_iSum kbn_step_int_approx kbn_step_int_ovrfl
  kbn_init_cnt kbn_init_iSum kbn_init_approx kbn_init_ovrfl : sum_fields.

(** Closes the goals of [sum_step_int] once the flags are known. *)
Ltac close_flags :=
  repeat match goal with
  | H : true = false |- _ => discriminate H
  | H : false = true |- _ => discriminate H
  | |- _ /\ _ => split
  | |- _ -> _ => intro
  | |- _ = _ => reflexivity
  end.

(** One [INTEGER] input, in either implementation: it is counted; the
    exact sum goes on while it fits in 64 bits; an overflow sets both flags,
    which stay set. *)
Lemma sum_step_int (v : sqlite_sum) (p : sum_ctx) (i : Z) :
  let q := sum_step v p (SInt i) in
  cnt q = S (cnt p)
  /\ (approx p = false -> ovrfl p = false -> int64_ok (iSum p + i) = true ->
      approx q = false /\ ovrfl q = false /\ iSum q = iSum p + i)
  /\ (approx p = false -> ovrfl p = false -> int64_ok (iSum p + i) = false ->
      approx q = true /\ ovrfl q = true)
  /\ (approx p = true -> ovrfl p = true -> approx q = true /\ ovrfl q = true).
Proof.
  cbv zeta. destruct v; cbn [sum_step].
  - unfold plain_step.
    destruct (approx p), (ovrfl p), (int64_ok (iSum p + i)); cbn; close_flags.
  - unfold kbn_sum_step, set_flags. cbn [approx ovrfl iSum cnt].
    destruct (approx p), (ovrfl p), (int64_ok (iSum p + i)); cbn [negb];
      autorewrite with sum_fields; cbn [approx ovrfl iSum cnt]; close_flags.
Qed.

Lemma int_column_cons_int (i : Z) (col : list (option sqlval)) (zs : list Z) :
  int_column (Some (SInt i) :: col) = Some zs ->
  exists zs', zs = i :: zs' /\ int_column col = Some zs'.
Proof.
  cbn [int_column]. destruct (int_column col) as [zs' |]; [| discriminate].
  intros H. injection H as <-. exists zs'. split; reflexivity.
Qed.

Lemma sum_fold_after_overflow (v : sqlite_sum) (col : list (option sqlval)) (zs : list Z) (p : sum_ctx) :
  int_column col = Some zs -> approx p = true -> ovrfl p = true ->
  approx (sum_fold v col p) = true /\ ovrfl (sum_fold v col p) = true
  /\ (cnt p <= cnt (sum_fold v col p))%nat.
Proof.
  revert zs p; induction col as [| [[i | r] |] col IH]; intros zs p Hc Ha Ho.
  - unfold sum_fold; cbn [fold_left]. split; [exact Ha | split; [exact Ho | lia]].
  - destruct (int_column_cons_int i col zs Hc) as (zs' & _ & Hc').
    destruct (sum_step_int v p i) as (Hn & _ & _ & Hov).
    destruct (Hov Ha Ho) as [Ha' Ho'].
    destruct (IH zs' _ Hc' Ha' Ho') as (H1 & H2 & H3).
    repeat split; [exact H1 | exact H2 | cbv zeta in Hn; unfold sum_fold in H3 |- *; simpl; lia].
  - discriminate.
  - exact (IH zs p Hc Ha Ho).
Qed.

(** An [INTEGER] column whose running totals fit in 64 bits: [SUM] never
    leaves the exact integer path. *)
Lemma sum_fold_ints_ok (v : sqlite_sum) (col : list (option sqlval)) (zs : list Z) (p : sum_ctx) :
  int_column col = Some zs -> approx p = false -> ovrfl p = false ->
  running_ok (iSum p) zs = true ->
  approx (sum_fold v col p) = false /\ ovrfl (sum_fold v col p) = false
  /\ iSum (sum_fold v col p) = iSum p + fold_right Z.add 0 zs
  /\ cnt (sum_fold v col p) = (cnt p + length zs)%nat.
Proof.
  revert zs p; induction col as [| [[i | r] |] col IH]; intros zs p Hc Ha Ho Hr.
  - cbn [int_column] in Hc. injection Hc as <-. cbn. repeat split; try assumption; lia.
  - destruct (int_column_cons_int i col zs Hc) as (zs' & -> & Hc').
    cbn [running_ok] in Hr. apply andb_true_iff in Hr as [Hi Hr].
    destruct (sum_step_int v p i) as (Hn & Hok & _ & _).
    destruct (Hok Ha Ho Hi) as (Ha' & Ho' & Hs).
    rewrite <- Hs in Hr.
    destruct (IH zs' _ Hc' Ha' Ho' Hr) as (H1 & H2 & H3 & H4).
    unfold sum_fold in *. cbn [fold_left].
    rewrite H3, H4, Hs, Hn. cbn [fold_right length]. repeat split; [exact H1 | exact H2 | lia | lia].
  - discriminate.
  - exact (IH zs p Hc Ha Ho Hr).
Qed.

(** An [INTEGER] column with a running total outside 64 bits: [SUM] ends
    with both flags set, after at least one input. *)
Lemma sum_fold_ints_overflow (v : sqlite_sum) (col : list (option sqlval)) (zs : list Z) (p : sum_ctx) :
  int_column col = Some zs -> approx p = false -> ovrfl p = false ->
  running_ok (iSum p) zs = false ->
  approx (sum_fold v col p) = true /\ ovrfl (sum_fold v col p) = true
  /\ cnt (sum_fold v col p) <> 0%nat.
Proof.
  revert zs p; induction col as [| [[i | r] |] col IH]; intros zs p Hc Ha Ho Hr.
  - cbn [int_column] in Hc. injection Hc as <-. discriminate.
  - destruct (int_column_cons_int i col zs Hc) as (zs' & -> & Hc').
    destruct (sum_step_int v p i) as (Hn & Hok & Hov & _).
    cbn [running_ok] in Hr. unfold sum_fold. cbn [fold_left]. fold (sum_fold v col (sum_step v p (SInt i))).
    destruct (int64_ok (iSum p + i)) eqn:Hi.
    + cbn [andb] in Hr. destruct (Hok Ha Ho eq_refl) as (Ha' & Ho' & Hs).
      rewrite <- Hs in Hr. exact (IH zs' _ Hc' Ha' Ho' Hr).
    + destruct (Hov Ha Ho eq_refl) as [Ha' Ho'].
      destruct (sum_fold_after_overflow v col zs' _ Hc' Ha' Ho') as (H1 & H2 & H3).
      repeat split; [exact H1 | exact H2 | cbv zeta in Hn; lia].
  - discriminate.
  - exact (IH zs p Hc Ha Ho Hr).
Qed.

Lemma length_zero_nil {A} (l : list A) : length l = 0%nat -> l = [].
Proof. destruct l; [reflexivity | discriminate]. Qed.

(** [compute_expense] on a ledger whose prices are [INTEGER]s (or
    [NULL]), for either implementation of [SUM]. *)
Lemma compute_expense_ints (v : sqlite_sum) (s : db) (lid : pystr) (zs : list Z) :
  int_column (ledger_prices s lid) = Some zs ->
  compute_expense v s lid
  = if running_ok 0 zs then Ok (int_to_float (fold_right Z.add 0 zs)) else Err integer_overflow.
Proof.
  intros Hc. unfold compute_expense, sql_sum.
  destruct (running_ok 0 zs) eqn:Hr.
  - destruct (sum_fold_ints_ok v _ zs sum_init Hc eq_refl eq_refl Hr) as (Ha & Ho & Hs & Hn).
    cbn [cnt iSum sum_init] in Hn, Hs.
    unfold sum_final. rewrite Hn. cbn [Nat.add].
    destruct (Nat.eqb_spec (length zs) 0) as [Hz | Hz].
    + rewrite (length_zero_nil zs Hz). reflexivity.
    + destruct v; rewrite ?Ha, ?Ho, Hs; reflexivity.
  - destruct (sum_fold_ints_overflow v _ zs sum_init Hc eq_refl eq_refl Hr) as (Ha & Ho & Hn).
    unfold sum_final. destruct (Nat.eqb_spec (cnt (sum_fold v (ledger_prices s lid) sum_init)) 0);
      [contradiction |].
    destruct v; rewrite ?Ha, Ho; reflexivity.
Qed.

Lemma int_column_nulls (col : list (option sqlval)) :
  (forall x, In x col -> x = None) -> int_column col = Some [].
Proof.
  induction col as [| x col IH]; intros H; [reflexivity |].
  rewrite (H x (or_introl eq_refl)). apply IH. intros y Hy. apply H. right. exact Hy.
Qed.

Lemma compute_expense_nulls (v : sqlite_sum) (s : db) (lid : pystr) :
  (forall x, In x (ledger_prices s lid) -> x = None) -> compute_expense v s lid = Ok 0%float.
Proof.
  intros H. rewrite (compute_expense_ints v s lid [] (int_column_nulls _ H)).
  vm_compute. reflexivity.
Qed.

(** C3 (corrected).  [compute_expense] evaluates SQLite's [SUM] over the
    stored [price] values of the ledger's rows and converts the result to
    [float], for the plain [SUM] of SQLite up to 3.42 and the compensated
    one from 3.43 alike.  With no non-[NULL] price it returns 0.0.  A
    [float] price with an integral value strictly between -2^63 and
    2^63 - 1 is stored as an [INTEGER] ([NUMERIC] affinity).  When the
    prices are all [INTEGER]s and every running total stays within 64
    bits, the result is their exact sum converted to double; when a running
    total leaves that range, the call raises the [OperationalError]
    "integer overflow".  A [REAL] price makes the total a double-precision
    one: the prices 0.1 and 0.2 give 0.30000000000000004, which differs
    from the arithmetic sum of the stored values. *)
Theorem compute_expense_is_sum (v : sqlite_sum) (s : db) (lid : pystr) :
  ((forall x, In x (ledger_prices s lid) -> x = None) -> compute_expense v s lid = Ok 0%float)
  /\ (forall r ix, PrimFloat.is_nan r = false -> float_int r = Some ix ->
      - 2 ^ 63 < ix < 2 ^ 63 - 1 -> stored_price (Some (SReal r)) = Some (SInt ix))
  /\ (forall zs, int_column (ledger_prices s lid) = Some zs ->
      (running_ok 0 zs = true -> compute_expense v s lid = Ok (int_to_float (fold_right Z.add 0 zs)))
      /\ (running_ok 0 zs = false ->
          compute_expense v s lid = Err (OperationalError "integer overflow")))
  /\ compute_expense v cents_db (txt "L1") = Ok 0x1.3333333333334p-2%float
  /\ (exists q r, exact_sum (ledger_prices cents_db (txt "L1")) = Some q
                  /\ float_value 0x1.3333333333334p-2 = Some r /\ ~ Qeq q r).
Proof.
  split; [apply compute_expense_nulls |].
  split; [| split; [| split]].
  - intros r ix Hnan Hint Hix. unfold stored_price, numeric_affinity.
    rewrite Hnan, Hint. replace ((- 2 ^ 63 <? ix) && (ix <? 2 ^ 63 - 1)) with true; [reflexivity |].
    symmetry. apply andb_true_iff. split; apply Z.ltb_lt; lia.
  - intros zs Hc. rewrite (compute_expense_ints v s lid zs Hc).
    split; intros ->; reflexivity.
  - destruct v; vm_compute; reflexivity.
  - eexists; eexists. split; [vm_compute; reflexivity |]. split; [vm_compute; reflexivity |].
    intros H. apply Qeq_bool_iff in H. vm_compute in H. discriminate.
Qed.

(** [compute_expense] is not the arithmetic sum of the prices: 0.1 + 0.2
    is rounded to 0.30000000000000004, and two prices of [2^62] raise
    instead of summing to [2^63]. *)
Lemma compute_expense_not_exact :
  (forall v, compute_expense v cents_db (txt "L1") = Ok 0x1.3333333333334p-2%float)
  /\ (exists q, exact_sum (ledger_prices cents_db (txt "L1")) = Some q
                /\ Qeq q (Qmake 10808639105689191 (2 ^ 55)))
  /\ (exists r, float_value 0x1.3333333333334p-2 = Some r
                /\ Qeq r (Qmake 10808639105689192 (2 ^ 55)))
  /\ (forall v, compute_expense v big_db (txt "L1") = Err (OperationalError "integer overflow"))
  /\ exact_sum (ledger_prices big_db (txt "L1")) = Some (inject_Z (2 ^ 63) + 0)%Q.
Proof.
  split; [intros []; vm_compute; reflexivity |].
  split; [eexists; split; [vm_compute; reflexivity | vm_compute; reflexivity] |].
  split; [eexists; split; [vm_compute; reflexivity | vm_compute; reflexivity] |].
  split; [intros []; vm_compute; reflexivity |].
  vm_compute. reflexivity.
Qed.

Lemma add_transaction_keeps_fk (ts_ms : Z) (r2 r6 : list byte) (now : tm)
    (lid payer : pystr) (price : option sqlval) (desc pt : option pystr) (s : db) :
  fk_transactions_ok s = true ->
  fk_transactions_ok (snd (add_transaction ts_ms r2 r6 now lid payer price desc pt s)) = true.
Proof.
  intros Hfk. unfold add_transaction, with_conn, bind, query.
  destruct (select_ledger s lid) as [l |] eqn:Hl; [| exact Hfk].
  pose proof (select_ledger_exists s lid l Hl) as Hle.
  unfold insert_transaction; cbn [Tx.price Tx.transaction_id Tx.ledger_id Tx.payer_id].
  destruct (stored_price price) as [q |]; [| exact Hfk].
  destruct (tx_exists s (uuid7 ts_ms r2 r6)); [exact Hfk |].
  rewrite Hle. cbn [negb orb].
  destruct (user_exists s payer) eqn:Hu; [| exact Hfk]. cbn [negb orb].
  unfold insert_user_transaction.
  destruct (pair_in _ _); [exact Hfk |].
  destruct (_ || _); [exact Hfk |].
  unfold fk_transactions_ok, ret in *. cbn [set_user_transactions set_transactions transactions ledgers user_transactions snd].
  rewrite forallb_app. unfold ledger_exists in *. cbn [set_user_transactions set_transactions ledgers] in *. rewrite Hfk. simpl. rewrite Hle. reflexivity.
Qed.

(** C10.  In a store whose transactions all reference existing ledgers,
    [compute_expense] on a ledger id that does not exist returns 0.0, the
    same value as for an existing ledger without transactions, whatever
    the SQLite version; it has no error outcome. *)
Theorem compute_expense_absent_ledger (v : sqlite_sum) (s : db) (lid : pystr) :
  fk_transactions_ok s = true -> ledger_exists s lid = false ->
  compute_expense v s lid = Ok 0%float.
Proof.
  intros Hfk Hno. apply compute_expense_nulls.
  unfold ledger_prices. unfold fk_transactions_ok in Hfk.
  replace (filter (fun t => eqs (Tx.ledger_id t) lid) (transactions s)) with (@nil Tx.t);
    [intros x [] |].
  induction (transactions s) as [| t ts IH]; [reflexivity |].
  simpl in Hfk |- *. apply andb_true_iff in Hfk as [Ht Hts].
  destruct (eqs (Tx.ledger_id t) lid) eqn:E.
  - apply eqs_true in E. rewrite E in Ht. congruence.
  - exact (IH Hts).
Qed.

Lemma compute_expense_absent_ledger_witness :
  (fk_transactions_ok demo_db = true /\ ledger_exists demo_db (txt "L2") = false)
  /\ compute_expense SumKBN demo_db (txt "L2") = Ok 0%float.
Proof.
  split; [split; vm_compute; reflexivity |].
  apply compute_expense_absent_ledger; vm_compute; reflexivity.
Defined.

Lemma find_skip {A} (f : A -> bool) (pre post : list A) :
  Forall (fun v => f v = false) pre -> find f (pre ++ post) = find f post.
Proof. induction 1 as [| v pre Hv _ IH]; simpl; [reflexivity | rewrite Hv; exact IH]. Qed.

Lemma find_none_all {A} (f : A -> bool) (l : list A) :
  (forall v, In v l -> f v = false) -> find f l = None.
Proof.
  induction l as [| v l IH]; intros H; simpl; [reflexivity |].
  rewrite (H v (or_introl eq_refl)). apply IH. intros w Hw; apply H; right; exact Hw.
Qed.

(** C9.  [login] never raises.  With no row of that [user_name] it returns
    [None]; otherwise the first such row in scan order decides: its
    [user_id] when its stored hash equals the given one, [None] when it
    differs, the same answer as for an unknown name. *)
Theorem login_first_row (s : db) (name pw : pystr) :
  ((forall u, In u (users s) -> User.user_name u <> name) -> login s name pw = None)
  /\ (forall pre u post,
        users s = pre ++ u :: post ->
        Forall (fun v => User.user_name v <> name) pre ->
        User.user_name u = name ->
        (User.hashed_password u = pw -> login s name pw = Some (User.user_id u))
        /\ (User.hashed_password u <> pw -> login s name pw = None)).
Proof.
  split.
  - intros Hno. unfold login. rewrite find_none_all; [reflexivity |].
    intros v Hv. destruct (eqs (User.user_name v) name) eqn:E; [| reflexivity].
    apply eqs_true in E. exfalso; exact (Hno v Hv E).
  - intros pre u post Hus Hpre Hu. unfold login. rewrite Hus, find_skip.
    + simpl. assert (Hn : eqs (User.user_name u) name = true) by (apply eqs_true; exact Hu).
      rewrite Hn. split.
      * intros Hp. assert (eqs (User.hashed_password u) pw = true) as -> by (apply eqs_true; exact Hp).
        reflexivity.
      * intros Hp. destruct (eqs (User.hashed_password u) pw) eqn:E; [| reflexivity].
        apply eqs_true in E. contradiction.
    + eapply Forall_impl; [| exact Hpre]. intros v Hv.
      destruct (eqs (User.user_name v) name) eqn:E; [| reflexivity].
      apply eqs_true in E. contradiction.
Qed.

Lemma pair_in_app_last (rel : list (pystr * pystr)) (p : pystr * pystr) :
  pair_in p (rel ++ [p]) = true.
Proof.
  unfold pair_in. rewrite existsb_app. simpl.
  assert (H : forall x, eqs x x = true) by (intros x; apply eqs_true; reflexivity).
  rewrite !H. simpl. apply orb_true_r.
Qed.

(** C8.  [link_user_to_ledger] returns [None] (here [tt]) and appends the
    link when user and ledger exist and the pair is new; calling it again
    with the same pair raises the UNIQUE [IntegrityError]; when the user or
    the ledger is missing it raises an [IntegrityError] (the FOREIGN KEY one
    when the pair is not already there).  Every failure leaves the store as
    it was. *)
Theorem link_user_to_ledger_spec (s : db) (lid uid : pystr) :
  (user_exists s uid = true -> ledger_exists s lid = true ->
   pair_in (uid, lid) (user_ledgers s) = false ->
   link_user_to_ledger lid uid s = (Ok tt, set_user_ledgers s (user_ledgers s ++ [(uid, lid)])))
  /\ (forall s', link_user_to_ledger lid uid s = (Ok tt, s') ->
      link_user_to_ledger lid uid s' = (Err unique_user_ledgers, s'))
  /\ (user_exists s uid = false \/ ledger_exists s lid = false ->
      (exists msg, link_user_to_ledger lid uid s = (Err (IntegrityError msg), s))
      /\ (pair_in (uid, lid) (user_ledgers s) = false ->
          link_user_to_ledger lid uid s = (Err fk_failed, s))).
Proof.
  unfold link_user_to_ledger, with_conn, insert_user_ledger. split; [| split].
  - intros Hu Hl Hp. rewrite Hp, Hu, Hl. reflexivity.
  - intros s' Hok.
    destruct (pair_in (uid, lid) (user_ledgers s)); [discriminate |].
    destruct (negb (user_exists s uid) || negb (ledger_exists s lid)); [discriminate |].
    injection Hok as <-. cbn [set_user_ledgers user_ledgers].
    rewrite pair_in_app_last. reflexivity.
  - intros Hmiss.
    assert (Hfk : negb (user_exists s uid) || negb (ledger_exists s lid) = true)
      by (destruct Hmiss as [-> | ->]; [reflexivity | apply orb_true_r]).
    split.
    + destruct (pair_in (uid, lid) (user_ledgers s)); [eexists; reflexivity |].
      rewrite Hfk. eexists; reflexivity.
    + intros Hp. rewrite Hp, Hfk. reflexivity.
Qed.

Lemma is_digit_char (d : Z) : 0 <= d <= 9 -> is_digit (digit_char d) = true.
Proof.
  intros Hd. unfold is_digit, digit_char. apply andb_true_iff; split; apply N.leb_le;
    apply N2Z.inj_le; rewrite Z2N.id by lia; change (Z.of_N 48) with 48; change (Z.of_N 57) with 57; lia.
Qed.

Lemma dec_one (n : Z) : 0 <= n <= 9 -> dec n = [digit_char n].
Proof.
  intros Hn. unfold dec. destruct (Z.to_nat (Z.log2 n)); simpl;
    rewrite (Z.mod_small n 10) by lia;
    replace (n <? 10) with true by (symmetry; apply Z.ltb_lt; lia); reflexivity.
Qed.

Lemma pad2_shape (n : Z) : 0 <= n <= 99 ->
  exists a b, 0 <= a <= 9 /\ 0 <= b <= 9 /\ pad2 n = [digit_char a; digit_char b].
Proof.
  intros Hn. unfold pad2. destruct (n <? 10) eqn:E.
  - apply Z.ltb_lt in E. exists 0, n. rewrite dec_one by lia. repeat split; lia.
  - apply Z.ltb_ge in E. exists (n / 10), (n mod 10).
    assert (0 <= n / 10 < 10) by (split; [apply Z.div_pos | apply Z.div_lt_upper_bound]; lia).
    pose proof (Z.mod_pos_bound n 10 ltac:(lia)).
    split; [lia | split; [lia |]].
    unfold dec.
    assert (Hl : 3 <= Z.log2 n) by (apply Z.log2_le_pow2; lia).
    destruct (Z.to_nat (Z.log2 n)) as [| f] eqn:Ef; [lia |].
    cbn [dec_aux]. replace (n <? 10) with false by (symmetry; apply Z.ltb_ge; lia).
    replace (n / 10 <? 10) with true by (symmetry; apply Z.ltb_lt; lia).
    rewrite (Z.mod_small (n / 10) 10) by lia. reflexivity.
Qed.

Lemma dec_year_shape (y : Z) : 1000 <= y <= 9999 ->
  exists a b c d, 0 <= a <= 9 /\ 0 <= b <= 9 /\ 0 <= c <= 9 /\ 0 <= d <= 9
  /\ dec y = [digit_char a; digit_char b; digit_char c; digit_char d].
Proof.
  intros Hy. exists (y / 1000), ((y / 100) mod 10), ((y / 10) mod 10), (y mod 10).
  assert (1 <= y / 1000 < 10) by (split; [apply Z.div_le_lower_bound | apply Z.div_lt_upper_bound]; lia).
  pose proof (Z.mod_pos_bound (y / 100) 10 ltac:(lia)).
  pose proof (Z.mod_pos_bound (y / 10) 10 ltac:(lia)).
  pose proof (Z.mod_pos_bound y 10 ltac:(lia)).
  do 4 (split; [lia |]).
  unfold dec.
  assert (Hl : 9 <= Z.log2 y) by (apply Z.log2_le_pow2; lia).
  destruct (Z.to_nat (Z.log2 y)) as [| [| [| f]]] eqn:Ef; try lia.
  cbn [dec_aux].
  replace (y <? 10) with false by (symmetry; apply Z.ltb_ge; lia).
  replace (y / 10 <? 10) with false
    by (symmetry; apply Z.ltb_ge; apply Z.div_le_lower_bound; lia).
  rewrite !Z.div_div by lia. replace (10 * 10 * 10) with 1000 by reflexivity. replace (10 * 10) with 100 by reflexivity.
  replace (y / 100 <? 10) with false
    by (symmetry; apply Z.ltb_ge; apply Z.div_le_lower_bound; lia).
  replace (y / 1000 <? 10) with true by (symmetry; apply Z.ltb_lt; lia).
  rewrite (Z.mod_small (y / 1000) 10) by lia. reflexivity.
Qed.

Lemma strftime_datetime_form (t : tm) :
  valid_tm t = true -> datetime_form (strftime_datetime t) = true.
Proof.
  unfold valid_tm. intros H. repeat rewrite andb_true_iff in H. rewrite !Z.leb_le in H.
  destruct H as [[[[[[[[[[[H1 H2] H3] H4] H5] H6] H7] H8] H9] H10] H11] H12].
  destruct (dec_year_shape (tm_year t)) as (a & b & c & d & Ha & Hb & Hc & Hd & Ey); [lia |].
  destruct (pad2_shape (tm_mon t)) as (m1 & m2 & Hm1 & Hm2 & Em); [lia |].
  destruct (pad2_shape (tm_mday t)) as (d1 & d2 & Hd1 & Hd2 & Ed); [lia |].
  destruct (pad2_shape (tm_hour t)) as (h1 & h2 & Hh1 & Hh2 & Eh); [lia |].
  destruct (pad2_shape (tm_min t)) as (n1 & n2 & Hn1 & Hn2 & En); [lia |].
  destruct (pad2_shape (tm_sec t)) as (s1 & s2 & Hs1 & Hs2 & Es); [lia |].
  unfold strftime_datetime, strftime_date. rewrite Ey, Em, Ed, Eh, En, Es.
  unfold datetime_form. cbn [app List.length seq forallb nth Nat.eqb].
  rewrite !is_digit_char by assumption. reflexivity.
Qed.

Lemma lstrip_nil (x : pystr) : forallb is_space x = true -> lstrip x = [].
Proof.
  induction x as [| c x IH]; simpl; [reflexivity |].
  intros H. apply andb_true_iff in H as [Hc Hx]. rewrite Hc. exact (IH Hx).
Qed.

Lemma lstrip_forall (x : pystr) : lstrip x = [] -> forallb is_space x = true.
Proof.
  induction x as [| c x IH]; simpl; [reflexivity |].
  destruct (is_space c); [exact IH | discriminate].
Qed.

Lemma lstrip_head (x : pystr) : forallb is_space (lstrip x) = true -> lstrip x = [].
Proof.
  induction x as [| c x IH]; simpl; [reflexivity |].
  destruct (is_space c) eqn:E; [exact IH |]. simpl. rewrite E. discriminate.
Qed.

(** An absent, empty or whitespace-only name is exactly what
    [not ledger_name or ledger_name.strip() == ""] accepts. *)
Lemma blank_name_iff (name : option pystr) :
  blank_name name = true <-> name = None \/ exists x, name = Some x /\ forallb is_space x = true.
Proof.
  split.
  - intros Hb. destruct name as [x |]; [| left; reflexivity]. right.
    exists x. split; [reflexivity |].
    destruct x as [| c x]; [reflexivity |]. simpl blank_name in Hb.
    unfold py_strip in Hb.
    destruct (rev (lstrip (rev (lstrip (c :: x))))) eqn:E; [| discriminate Hb].
    apply (f_equal (@rev N)) in E. rewrite rev_involutive in E. simpl in E.
    apply lstrip_forall in E. rewrite forallb_forall in E.
    assert (Hl : lstrip (c :: x) = []).
    { apply lstrip_head. apply forallb_forall. intros v Hv. apply E.
      apply (proj1 (in_rev _ _)); exact Hv. }
    apply lstrip_forall; exact Hl.
  - intros [-> | (x & -> & Hx)]; [reflexivity |].
    destruct x as [| c x]; [reflexivity |]. simpl blank_name.
    unfold py_strip. rewrite (lstrip_nil (c :: x) Hx). reflexivity.
Qed.

Lemma select_user_exists (s : db) (uid : pystr) (u : User.t) :
  select_user s uid = Some u -> user_exists s uid = true.
Proof.
  unfold select_user, user_exists. intros Hf.
  apply existsb_exists. exists u. exact (find_some _ _ Hf).
Qed.

(** C6.  [add_ledger] for an unknown creator raises the not-found
    [OperationalError] and leaves the store as it was.  For an existing
    creator and an absent, empty or whitespace-only name, the stored row is
    named [creator_name ++ " 的账本 " ++ strftime("%Y-%m-%d", gmtime())] and
    its [create_time] is [strftime("%Y-%m-%d %H:%M:%S", gmtime())] (the
    second clock reading), text of the form "YYYY-MM-DD HH:MM:SS" for any
    valid four-digit-year reading; the only failure left is a clash of the
    generated [ledger_id]. *)
Theorem add_ledger_default_name (ts_ms : Z) (r2 r6 : list byte) (now1 now2 : tm)
    (uid : pystr) (name : option pystr) (s : db) :
  let lid := uuid7 ts_ms r2 r6 in
  let r := add_ledger ts_ms r2 r6 now1 now2 uid name s in
  (select_user s uid = None -> r = (Err (OperationalError "user_id not found"), s))
  /\ (forall u, select_user s uid = Some u ->
      (name = None \/ exists x, name = Some x /\ forallb is_space x = true) ->
      let row := Ledger.mk lid uid (User.user_name u ++ ledger_word ++ strftime_date now1)
                 (strftime_datetime now2) in
      (ledger_exists s lid = false -> r = (Ok lid, set_ledgers s (ledgers s ++ [row])))
      /\ (ledger_exists s lid = true ->
          r = (Err (IntegrityError "UNIQUE constraint failed: ledgers.ledger_id"), s)))
  /\ (valid_tm now2 = true -> datetime_form (strftime_datetime now2) = true).
Proof.
  cbv zeta. split; [| split].
  - intros Hn. unfold add_ledger, with_conn, bind, query. rewrite Hn. reflexivity.
  - intros u Hu Hblank. apply blank_name_iff in Hblank.
    pose proof (select_user_exists s uid u Hu) as Hue.
    unfold add_ledger, with_conn, bind, query. rewrite Hu, Hblank.
    unfold insert_ledger. cbn [Ledger.ledger_id Ledger.creator_id].
    split; intros Hl; rewrite Hl; [rewrite Hue |]; reflexivity.
  - apply strftime_datetime_form.
Qed.

(** ** Sets and [sorted] *)

Lemma py_lt_trans (a b c : pystr) : py_lt a b = true -> py_lt b c = true -> py_lt a c = true.
Proof.
  revert b c; induction a as [| x a IH]; intros [| y b] [| z c]; simpl; try congruence.
  destruct (N.ltb_spec x y), (N.eqb_spec x y), (N.ltb_spec y z), (N.eqb_spec y z),
           (N.ltb_spec x z), (N.eqb_spec x z); try congruence; try lia.
  subst. apply IH.
Qed.

Lemma py_lt_total (a b : pystr) : a <> b -> py_lt a b = true \/ py_lt b a = true.
Proof.
  revert b; induction a as [| x a IH]; intros [| y b] Hne; simpl; auto.
  destruct (N.ltb_spec x y), (N.eqb_spec x y), (N.ltb_spec y x), (N.eqb_spec y x);
    auto; try lia.
  subst. apply IH. congruence.
Qed.

Lemma In_set_add (x y : pystr) (st : list pystr) : In y (set_add x st) <-> x = y \/ In y st.
Proof.
  unfold set_add. destruct (existsb (eqs x) st) eqn:E.
  - apply existsb_exists in E as (z & Hz & Ez). apply eqs_true in Ez. subst z.
    split; [auto | intros [<- | H]; auto].
  - simpl. split; intros [H | H]; auto.
Qed.

Lemma NoDup_set_add (x : pystr) (st : list pystr) : NoDup st -> NoDup (set_add x st).
Proof.
  intros Hnd. unfold set_add. destruct (existsb (eqs x) st) eqn:E; [exact Hnd |].
  constructor; [| exact Hnd]. intros Hin.
  assert (existsb (eqs x) st = true) by (apply existsb_exists; exists x; split; [exact Hin | apply eqs_true; reflexivity]).
  congruence.
Qed.

Lemma set_fold_spec (xs st : list pystr) :
  NoDup st ->
  NoDup (fold_left (fun st x => set_add x st) xs st)
  /\ (forall y, In y (fold_left (fun st x => set_add x st) xs st) <-> In y xs \/ In y st).
Proof.
  revert st; induction xs as [| x xs IH]; intros st Hnd; simpl.
  - split; [exact Hnd | intros y; tauto].
  - destruct (IH (set_add x st) (NoDup_set_add x st Hnd)) as [H1 H2].
    split; [exact H1 |]. intros y. rewrite H2, In_set_add. tauto.
Qed.

Lemma set_of_spec (xs : list pystr) :
  NoDup (set_of xs) /\ (forall y, In y (set_of xs) <-> In y xs).
Proof.
  destruct (set_fold_spec xs [] (NoDup_nil _)) as [H1 H2].
  split; [exact H1 | intros y; rewrite (H2 y); simpl; tauto].
Qed.

Lemma set_union_spec (a b : list pystr) :
  NoDup a -> NoDup (set_union a b) /\ (forall y, In y (set_union a b) <-> In y a \/ In y b).
Proof.
  intros Ha. destruct (set_fold_spec b a Ha) as [H1 H2].
  split; [exact H1 | intros y; unfold set_union; rewrite H2; tauto].
Qed.

Lemma In_insert_sorted (x y : pystr) (l : list pystr) :
  In y (insert_sorted x l) <-> x = y \/ In y l.
Proof.
  induction l as [| z l IH]; simpl; [tauto |].
  destruct (py_lt z x); simpl; [rewrite IH |]; tauto.
Qed.

Lemma insert_sorted_sorted (x : pystr) (l : list pystr) :
  StronglySorted str_lt l -> ~ In x l -> StronglySorted str_lt (insert_sorted x l).
Proof.
  induction l as [| z l IH]; intros Hs Hx; simpl.
  - repeat constructor.
  - apply StronglySorted_inv in Hs as [Hs Hz].
    destruct (py_lt z x) eqn:E.
    + constructor; [apply IH; [exact Hs | intros H; apply Hx; right; exact H] |].
      apply Forall_forall. intros w Hw. apply In_insert_sorted in Hw as [<- | Hw].
      * exact E.
      * exact (proj1 (Forall_forall _ _) Hz w Hw).
    + assert (Hxz : str_lt x z).
      { destruct (py_lt_total x z) as [H | H]; [intros ->; apply Hx; left; reflexivity | exact H | congruence]. }
      constructor; [constructor; [exact Hs | exact Hz] |].
      constructor; [exact Hxz |].
      apply Forall_forall. intros w Hw. apply (py_lt_trans x z w Hxz).
      exact (proj1 (Forall_forall _ _) Hz w Hw).
Qed.

Lemma sorted_spec (l : list pystr) :
  NoDup l -> StronglySorted str_lt (sorted l) /\ (forall y, In y (sorted l) <-> In y l).
Proof.
  induction l as [| x l IH]; intros Hnd; simpl.
  - split; [constructor | tauto].
  - apply NoDup_cons_iff in Hnd as [Hx Hnd]. destruct (IH Hnd) as [Hs Hin].
    split.
    + apply insert_sorted_sorted; [exact Hs | rewrite Hin; exact Hx].
    + intros y. rewrite In_insert_sorted, Hin. tauto.
Qed.

Lemma created_date_of_eq (ct : pystr) : created_date_of ct = created_month ct.
Proof.
  unfold created_date_of, created_month. generalize (py_strip ct) as t. intros t.
  do 7 (destruct t as [| ? t]; [reflexivity |]). reflexivity.
Qed.

Lemma In_linked (ul : list (pystr * pystr)) (lid x : pystr) :
  In x (map fst (filter (fun p => eqs (snd p) lid) ul)) <-> In (x, lid) ul.
Proof.
  rewrite in_map_iff. split.
  - intros ([y l] & Hx & Hin). apply filter_In in Hin as [Hin E].
    simpl in Hx, E. apply eqs_true in E. subst. exact Hin.
  - intros Hin. exists (x, lid). split; [reflexivity |].
    apply filter_In. split; [exact Hin | apply eqs_true; reflexivity].
Qed.

(** C2 (as the code does it).  [get_ledger_info] on an absent ledger raises
    the not-found [OperationalError].  On a ledger it returns the stored
    name; the participants in strictly increasing Python string order,
    exactly the users linked in [user_ledgers] and the creator; and the
    month computed from the stored [create_time] after [strip()]: with at
    least 7 characters and a dash as 5th character, characters 6-7, a dash
    and characters 3-4 (no digit check), otherwise [""]. *)
Theorem get_ledger_info_summary (s : db) (lid : pystr) :
  (select_ledger s lid = None -> get_ledger_info s lid = Err (OperationalError "ledger_id not found"))
  /\ (forall l, select_ledger s lid = Some l ->
      exists info, get_ledger_info s lid = Ok info
      /\ info_ledger_name info = Ledger.ledger_name l
      /\ StronglySorted str_lt (involved_user info)
      /\ (forall x, In x (involved_user info) <-> In (x, lid) (user_ledgers s) \/ x = Ledger.creator_id l)
      /\ created_date info = created_month (Ledger.create_time l)).
Proof.
  split.
  - intros Hn. unfold get_ledger_info. rewrite Hn. reflexivity.
  - intros l Hl. unfold get_ledger_info. rewrite Hl.
    eexists; split; [reflexivity |]. cbn [info_ledger_name involved_user created_date].
    set (linked := map fst (filter (fun p => eqs (snd p) lid) (user_ledgers s))).
    destruct (set_of_spec linked) as [Hnd Hin].
    destruct (sorted_spec (set_add (Ledger.creator_id l) (set_of linked)) (NoDup_set_add _ _ Hnd))
      as [Hs Hsin].
    split; [reflexivity | split; [exact Hs | split]].
    + intros x. rewrite Hsin, In_set_add, Hin. unfold linked. rewrite In_linked.
      split; intros [H | H]; auto.
    + apply created_date_of_eq.
Qed.

(** C2 fails as worded: a stored [create_time] with a leading space.  Its
    first 7 characters [" 2025-0"] have no dash as 5th character, so the
    claim's rendering is [""]; [get_ledger_info] strips the text first and
    renders ["09-25"]. *)
Lemma get_ledger_info_month_stripped :
  exists info, get_ledger_info spaced_db (txt "L1") = Ok info
  /\ created_date info = txt "09-25"
  /\ spec_created_date (txt " 2025-09-01 10:00:00") = []
  /\ created_date info <> spec_created_date (txt " 2025-09-01 10:00:00").
Proof.
  eexists. split; [vm_compute; reflexivity |].
  split; [vm_compute; reflexivity |]. split; [vm_compute; reflexivity |].
  vm_compute. discriminate.
Qed.

Lemma collect_infos_kept (s : db) (lids : list pystr) :
  collect_infos s lids = Ok (kept_infos s lids).
Proof.
  induction lids as [| lid lids IH]; simpl; [reflexivity |].
  unfold kept_infos in *. cbn [flat_map]. unfold get_ledger_info. destruct (select_ledger s lid); [| exact IH].
  unfold kept_infos in IH. rewrite IH. reflexivity.
Qed.

Lemma In_created (ls : list Ledger.t) (uid x : pystr) :
  In x (map Ledger.ledger_id (filter (fun l => eqs (Ledger.creator_id l) uid) ls))
  <-> exists l, In l ls /\ Ledger.creator_id l = uid /\ Ledger.ledger_id l = x.
Proof.
  rewrite in_map_iff. split.
  - intros (l & Hx & Hin). apply filter_In in Hin as [Hin E]. apply eqs_true in E.
    exists l. auto.
  - intros (l & Hin & Hc & Hx). exists l. split; [exact Hx |].
    apply filter_In. split; [exact Hin | apply eqs_true; exact Hc].
Qed.

Lemma In_joined (ul : list (pystr * pystr)) (uid x : pystr) :
  In x (map snd (filter (fun p => eqs (fst p) uid) ul)) <-> In (uid, x) ul.
Proof.
  rewrite in_map_iff. split.
  - intros ([u l] & Hx & Hin). apply filter_In in Hin as [Hin E].
    simpl in Hx, E. apply eqs_true in E. subst. exact Hin.
  - intros Hin. exists (uid, x). split; [reflexivity |].
    apply filter_In. split; [exact Hin | apply eqs_true; reflexivity].
Qed.

(** C7.  [get_user_info] on an absent user raises the not-found
    [OperationalError].  Otherwise it returns the user's name and, for the
    ledger ids the user created or is linked to in [user_ledgers], each
    once and in strictly increasing Python string order, the summary of
    every such ledger that [get_ledger_info] finds, silently leaving out
    those it does not; with no such ledger the list is empty. *)
Theorem get_user_info_summary (s : db) (uid : pystr) :
  (select_user s uid = None -> get_user_info s uid = Err (OperationalError "user_id not found"))
  /\ (forall u, select_user s uid = Some u ->
      exists lids,
        StronglySorted str_lt lids
        /\ (forall x, In x lids <->
              (exists l, In l (ledgers s) /\ Ledger.creator_id l = uid /\ Ledger.ledger_id l = x)
              \/ In (uid, x) (user_ledgers s))
        /\ get_user_info s uid = Ok (mk_uinfo (User.user_name u) (kept_infos s lids))
        /\ ((forall x, ~ In x lids) -> get_user_info s uid = Ok (mk_uinfo (User.user_name u) []))).
Proof.
  split.
  - intros Hn. unfold get_user_info. rewrite Hn. reflexivity.
  - intros u Hu. unfold get_user_info. rewrite Hu.
    set (created := map Ledger.ledger_id (filter (fun l => eqs (Ledger.creator_id l) uid) (ledgers s))).
    set (joined := map snd (filter (fun p => eqs (fst p) uid) (user_ledgers s))).
    destruct (set_of_spec created) as [Hnd1 Hin1].
    destruct (set_of_spec joined) as [Hnd2 Hin2].
    destruct (set_union_spec (set_of created) (set_of joined) Hnd1) as [Hnd Hin].
    destruct (sorted_spec _ Hnd) as [Hs Hsin].
    exists (sorted (set_union (set_of created) (set_of joined))).
    rewrite collect_infos_kept.
    split; [exact Hs | split; [| split; [reflexivity |]]].
    + intros x. rewrite Hsin, Hin, Hin1, Hin2. unfold created, joined.
      rewrite In_created, In_joined. reflexivity.
    + intros Hnone. destruct (sorted (set_union (set_of created) (set_of joined))) as [| y ys].
      * reflexivity.
      * exfalso. apply (Hnone y). left. reflexivity.
Qed.

(** ** Integrity of the store under every write *)

Lemma eqs_refl (a : pystr) : eqs a a = true.
Proof. apply eqs_true; reflexivity. Qed.

Lemma eqs_sym (a b : pystr) : eqs a b = eqs b a.
Proof.
  destruct (eqs a b) eqn:E; destruct (eqs b a) eqn:F; try reflexivity.
  - apply eqs_true in E. subst. rewrite eqs_refl in F. discriminate.
  - apply eqs_true in F. subst. rewrite eqs_refl in E. discriminate.
Qed.

Lemma pair_eqb_sym (p q : pystr * pystr) : pair_eqb p q = pair_eqb q p.
Proof. unfold pair_eqb. rewrite (eqs_sym (fst p)), (eqs_sym (snd p)). reflexivity. Qed.

Lemma existsb_app_l {A} (f : A -> bool) (l m : list A) :
  existsb f l = true -> existsb f (l ++ m) = true.
Proof. intros H. rewrite existsb_app, H. reflexivity. Qed.

Lemma existsb_map' {A B} (f : B -> bool) (g : A -> B) (l : list A) :
  existsb f (map g l) = existsb (fun x => f (g x)) l.
Proof. induction l as [| x l IH]; simpl; [reflexivity | rewrite IH; reflexivity]. Qed.

Lemma forallb_mono {A} (f g : A -> bool) (l : list A) :
  (forall x, f x = true -> g x = true) -> forallb f l = true -> forallb g l = true.
Proof.
  intros Hfg Hf. apply forallb_forall. intros x Hx.
  apply Hfg. exact (proj1 (forallb_forall _ _) Hf x Hx).
Qed.

Lemma uniq_snoc {A} (eqb : A -> A -> bool) (l : list A) (x : A) :
  (forall a b, eqb a b = eqb b a) ->
  uniq eqb l = true -> existsb (fun y => eqb y x) l = false -> uniq eqb (l ++ [x]) = true.
Proof.
  intros Hsym. induction l as [| y l IH]; simpl; intros Hu Hx; [reflexivity |].
  apply andb_true_iff in Hu as [Hy Hu]. apply orb_false_iff in Hx as [Hyx Hx].
  rewrite existsb_app. simpl. rewrite (Hsym x y), Hyx, orb_false_r, Hy, IH by assumption.
  reflexivity.
Qed.

Ltac split_bools :=
  repeat match goal with H : _ && _ = true |- _ => apply andb_true_iff in H as [? ?] end.

Ltac grow :=
  eapply forallb_mono; [| eassumption]; let Hy := fresh "Hy" in intros ? Hy; cbv beta in Hy |- *; split_bools;
  repeat (apply andb_true_iff; split); first [assumption | apply existsb_app_l; assumption].

Ltac unfold_ok :=
  unfold db_ok, fk_ok, keys_ok, user_exists, ledger_exists, tx_exists, pair_in in *;
  cbn [users ledgers user_ledgers transactions user_transactions
       set_ledgers set_user_ledgers set_transactions set_user_transactions] in *.

Ltac snoc_uniq :=
  rewrite ?map_app; cbn [map]; apply uniq_snoc;
  [first [exact eqs_sym | exact pair_eqb_sym] | assumption
  | rewrite ?existsb_map'; assumption].

Lemma insert_user_keeps (r : User.t) : keeps db_ok (insert_user r).
Proof.
  intros s [] s' Hok Hins. unfold insert_user in Hins.
  destruct (user_exists s (User.user_id r)) eqn:Hx; [discriminate |].
  injection Hins as <-. unfold_ok. split_bools.
  repeat (apply andb_true_iff; split); try assumption; try grow.
  snoc_uniq.
Qed.

Lemma insert_ledger_keeps (r : Ledger.t) : keeps db_ok (insert_ledger r).
Proof.
  intros s [] s' Hok Hins. unfold insert_ledger in Hins.
  destruct (ledger_exists s (Ledger.ledger_id r)) eqn:Hx; [discriminate |].
  destruct (user_exists s (Ledger.creator_id r)) eqn:Hc; [| discriminate].
  injection Hins as <-. unfold_ok. split_bools.
  repeat (apply andb_true_iff; split); try assumption; try grow.
  - rewrite forallb_app. simpl. rewrite Hc. repeat (apply andb_true_iff; split); auto.
  - snoc_uniq.
Qed.

Lemma insert_user_ledger_keeps (uid lid : pystr) : keeps db_ok (insert_user_ledger uid lid).
Proof.
  intros s [] s' Hok Hins. unfold insert_user_ledger in Hins.
  destruct (pair_in (uid, lid) (user_ledgers s)) eqn:Hx; [discriminate |].
  destruct (user_exists s uid) eqn:Hu; [| discriminate].
  destruct (ledger_exists s lid) eqn:Hl; [| discriminate].
  injection Hins as <-. unfold_ok. split_bools.
  repeat (apply andb_true_iff; split); try assumption.
  - rewrite forallb_app. simpl. rewrite Hu, Hl. repeat (apply andb_true_iff; split); auto.
  - snoc_uniq.
Qed.

Lemma insert_transaction_keeps (r : Tx.t) : keeps db_ok (insert_transaction r).
Proof.
  intros s [] s' Hok Hins. unfold insert_transaction in Hins.
  destruct (stored_price (Tx.price r)); [| discriminate].
  destruct (tx_exists s (Tx.transaction_id r)) eqn:Hx; [discriminate |].
  destruct (ledger_exists s (Tx.ledger_id r)) eqn:Hl; [| discriminate].
  destruct (user_exists s (Tx.payer_id r)) eqn:Hu; [| discriminate].
  injection Hins as <-. unfold_ok. split_bools.
  repeat (apply andb_true_iff; split); try assumption; try grow.
  - rewrite forallb_app. simpl. rewrite Hl, Hu. repeat (apply andb_true_iff; split); auto.
  - snoc_uniq.
Qed.

Lemma insert_user_transaction_keeps (uid tid : pystr) : keeps db_ok (insert_user_transaction uid tid).
Proof.
  intros s [] s' Hok Hins. unfold insert_user_transaction in Hins.
  destruct (pair_in (uid, tid) (user_transactions s)) eqn:Hx; [discriminate |].
  destruct (user_exists s uid) eqn:Hu; [| discriminate].
  destruct (tx_exists s tid) eqn:Ht; [| discriminate].
  injection Hins as <-. unfold_ok. split_bools.
  repeat (apply andb_true_iff; split); try assumption.
  - rewrite forallb_app. simpl. rewrite Hu, Ht. repeat (apply andb_true_iff; split); auto.
  - snoc_uniq.
Qed.

Section Keeps.
Variable P : db -> bool.

Lemma keeps_ret {A} (a : A) : keeps P (ret a).
Proof. intros s b s' Hs H. injection H as _ <-. exact Hs. Qed.

Lemma keeps_raise {A} (e : error) : keeps P (@raise A e).
Proof. intros s b s' Hs H. discriminate H. Qed.

Lemma keeps_query {A} (f : db -> A) : keeps P (query f).
Proof. intros s b s' Hs H. injection H as _ <-. exact Hs. Qed.

Lemma keeps_bind {A B} (m : txn A) (k : A -> txn B) :
  keeps P m -> (forall a, keeps P (k a)) -> keeps P (bind m k).
Proof.
  intros Hm Hk s b s' Hs H. unfold bind in H.
  destruct (m s) as [[a s1] | e] eqn:E; [| discriminate].
  exact (Hk a s1 b s' (Hm s a s1 Hs E) H).
Qed.

Lemma with_conn_keeps {A} (m : txn A) (s : db) :
  keeps P m -> P s = true -> P (snd (with_conn m s)) = true.
Proof.
  intros Hm Hs. unfold with_conn.
  destruct (m s) as [[a s'] | e] eqn:E; [exact (Hm s a s' Hs E) | exact Hs].
Qed.
End Keeps.

Create HintDb keeps.
#[local] Hint Resolve keeps_ret keeps_raise keeps_query insert_user_keeps insert_ledger_keeps
  insert_user_ledger_keeps insert_transaction_keeps insert_user_transaction_keeps : keeps.

(** Every write of the module keeps all the PRIMARY KEY and FOREIGN KEY
    constraints of [SCHEMAS]: [register_user], [add_ledger],
    [add_transaction], [link_user_to_ledger] and [link_user_to_transaction],
    whether they commit or roll back. *)
Theorem writes_keep_db_ok (s : db) :
  db_ok s = true ->
  (forall ts r2 r6 name pw, db_ok (snd (register_user ts r2 r6 name pw s)) = true)
  /\ (forall ts r2 r6 now1 now2 uid name,
        db_ok (snd (add_ledger ts r2 r6 now1 now2 uid name s)) = true)
  /\ (forall ts r2 r6 now lid payer price desc pt,
        db_ok (snd (add_transaction ts r2 r6 now lid payer price desc pt s)) = true)
  /\ (forall lid uid, db_ok (snd (link_user_to_ledger lid uid s)) = true)
  /\ (forall tid uid, db_ok (snd (link_user_to_transaction tid uid s)) = true).
Proof.
  intros Hs. split; [| split; [| split; [| split]]]; intros.
  - unfold register_user. apply with_conn_keeps; [| exact Hs].
    apply keeps_bind; auto with keeps.
  - unfold add_ledger. apply with_conn_keeps; [| exact Hs].
    apply keeps_bind; [auto with keeps |]. intros [u |]; cbv beta iota; [| auto with keeps].
    apply keeps_bind; auto with keeps.
  - unfold add_transaction. apply with_conn_keeps; [| exact Hs].
    apply keeps_bind; [auto with keeps |]. intros [l |]; cbv beta iota; [| auto with keeps].
    apply keeps_bind; [auto with keeps |]. intros _.
    apply keeps_bind; auto with keeps.
  - unfold link_user_to_ledger. apply with_conn_keeps; auto with keeps.
  - unfold link_user_to_transaction. apply with_conn_keeps; auto with keeps.
Qed.

Lemma writes_keep_db_ok_witness :
  db_ok demo_db = true
  /\ db_ok (snd (add_transaction 6000 b2 b6 day (txt "L1") (txt "A") (Some (SInt 3)) None None demo_db)) = true.
Proof.
  assert (H : db_ok demo_db = true) by (vm_compute; reflexivity).
  split; [exact H |].
  exact (proj1 (proj2 (proj2 (writes_keep_db_ok demo_db H)))
           6000 b2 b6 day (txt "L1") (txt "A") (Some (SInt 3)) None None).
Defined.

(** ** [register_user] and [login] *)

Lemma find_snoc {A} (f : A -> bool) (l : list A) (x : A) :
  find f (l ++ [x]) = match find f l with Some y => Some y | None => if f x then Some x else None end.
Proof. induction l as [| y l IH]; simpl; [reflexivity | destruct (f y); [reflexivity | exact IH]]. Qed.

(** Logging in right after a successful registration: with no earlier row
    of that name, the new id comes back; with one, the registration changes
    nothing for [login], which still answers from the earlier row, so the
    new account can never log in. *)
Theorem register_then_login (ts : Z) (r2 r6 : list byte) (name pw : pystr) (s : db) :
  user_exists s (uuid7 ts r2 r6) = false ->
  fst (register_user ts r2 r6 name pw s) = Ok (uuid7 ts r2 r6)
  /\ login (snd (register_user ts r2 r6 name pw s)) name pw
     = match find (fun u => eqs (User.user_name u) name) (users s) with
       | None => Some (uuid7 ts r2 r6)
       | Some _ => login s name pw
       end.
Proof.
  intros Hx. unfold register_user, with_conn, bind, insert_user, ret. cbn [User.user_id].
  rewrite Hx. split; [reflexivity |].
  unfold login. cbn [users snd]. rewrite find_snoc.
  destruct (find (fun u => eqs (User.user_name u) name) (users s)); [reflexivity |].
  cbn [User.user_name User.hashed_password User.user_id]. rewrite !eqs_refl. reflexivity.
Qed.

Lemma register_then_login_witness :
  user_exists demo_db (uuid7 5000 b2 b6) = false
  /\ fst (register_user 5000 b2 b6 (txt "Alice") (txt "h2") demo_db) = Ok (uuid7 5000 b2 b6)
  /\ login (snd (register_user 5000 b2 b6 (txt "Alice") (txt "h2") demo_db)) (txt "Alice") (txt "h2")
     = match find (fun u => eqs (User.user_name u) (txt "Alice")) (users demo_db) with
       | None => Some (uuid7 5000 b2 b6)
       | Some _ => login demo_db (txt "Alice") (txt "h2")
       end.
Proof.
  assert (H : user_exists demo_db (uuid7 5000 b2 b6) = false) by (vm_compute; reflexivity).
  split; [exact H |]. exact (register_then_login 5000 b2 b6 (txt "Alice") (txt "h2") demo_db H).
Defined.

(** ** What [add_transaction] changes *)

Lemma add_transaction_outcome (ts : Z) (r2 r6 : list byte) (now : tm)
    (lid payer : pystr) (price : option sqlval) (desc pt : option pystr) (s : db) :
  let tx_id := uuid7 ts r2 r6 in
  let row := Tx.mk tx_id lid payer (stored_price price) desc
               (match pt with None => strftime_date now | Some p => p end) in
  (exists e, add_transaction ts r2 r6 now lid payer price desc pt s = (Err e, s))
  \/ (ledger_exists s lid = true /\ (exists q, stored_price price = Some q) /\ tx_exists s tx_id = false
      /\ user_exists s payer = true /\ pair_in (payer, tx_id) (user_transactions s) = false
      /\ add_transaction ts r2 r6 now lid payer price desc pt s = (Ok tx_id, with_transaction s row payer)).
Proof.
  cbv zeta. unfold add_transaction, with_conn, bind, query.
  destruct (select_ledger s lid) as [l |] eqn:Hl; [| left; eexists; reflexivity].
  pose proof (select_ledger_exists s lid l Hl) as Hle.
  unfold insert_transaction; cbn [Tx.price Tx.transaction_id Tx.ledger_id Tx.payer_id].
  destruct (stored_price price) as [q |]; [| left; eexists; reflexivity].
  destruct (tx_exists s (uuid7 ts r2 r6)) eqn:Hx; [left; eexists; reflexivity |].
  rewrite Hle. cbn [negb orb].
  destruct (user_exists s payer) eqn:Hu; [| left; eexists; reflexivity]. cbn [negb orb].
  unfold insert_user_transaction. cbn [set_transactions user_transactions].
  destruct (pair_in (payer, uuid7 ts r2 r6) (user_transactions s)) eqn:Hp;
    [left; eexists; reflexivity |].
  rewrite user_exists_set_transactions, Hu. unfold tx_exists at 2. cbn [transactions set_transactions].
  rewrite tx_exists_app by reflexivity. cbn [negb orb]. unfold ret.
  right. repeat split; try assumption. eexists; reflexivity.
Qed.

Lemma collect_infos_ext (s1 s2 : db) (lids : list pystr) :
  (forall lid, get_ledger_info s1 lid = get_ledger_info s2 lid) ->
  collect_infos s1 lids = collect_infos s2 lids.
Proof.
  intros H. induction lids as [| lid lids IH]; simpl; [reflexivity |].
  rewrite H, IH. reflexivity.
Qed.

(** [add_transaction] never touches what [get_ledger_info] and
    [get_user_info] report: in particular the payer does not become a
    participant of the ledger (only [user_transactions] is written). *)
Theorem add_transaction_keeps_summaries (ts : Z) (r2 r6 : list byte) (now : tm)
    (lid payer : pystr) (price : option sqlval) (desc pt : option pystr) (s : db) :
  let s' := snd (add_transaction ts r2 r6 now lid payer price desc pt s) in
  (forall lid', get_ledger_info s' lid' = get_ledger_info s lid')
  /\ (forall uid, get_user_info s' uid = get_user_info s uid).
Proof.
  cbv zeta.
  assert (Hl : forall lid', get_ledger_info (snd (add_transaction ts r2 r6 now lid payer price desc pt s)) lid'
                            = get_ledger_info s lid').
  { intros lid'.
    destruct (add_transaction_outcome ts r2 r6 now lid payer price desc pt s)
      as [[e ->] | (_ & _ & _ & _ & _ & ->)]; reflexivity. }
  split; [exact Hl |].
  intros uid. unfold get_user_info.
  rewrite (collect_infos_ext _ s _ Hl).
  destruct (add_transaction_outcome ts r2 r6 now lid payer price desc pt s)
    as [[e ->] | (_ & _ & _ & _ & _ & ->)]; reflexivity.
Qed.





(** After a successful [add_transaction], the payer's link to the new
    transaction is already there: [link_user_to_transaction] for that pair
    raises the UNIQUE [IntegrityError]. *)
Theorem add_transaction_then_link_payer (ts : Z) (r2 r6 : list byte) (now : tm)
    (lid payer : pystr) (price : option sqlval) (desc pt : option pystr) (s : db) (t : pystr) (s' : db) :
  add_transaction ts r2 r6 now lid payer price desc pt s = (Ok t, s') ->
  t = uuid7 ts r2 r6
  /\ user_transactions s' = user_transactions s ++ [(payer, t)]
  /\ link_user_to_transaction t payer s' = (Err unique_user_transactions, s').
Proof.
  intros Hr.
  destruct (add_transaction_outcome ts r2 r6 now lid payer price desc pt s)
    as [[e He] | (_ & _ & _ & _ & _ & He)]; rewrite He in Hr; [discriminate |].
  injection Hr as <- <-. split; [reflexivity | split; [reflexivity |]].
  unfold link_user_to_transaction, with_conn, insert_user_transaction.
  cbn [with_transaction set_user_transactions set_transactions user_transactions Tx.transaction_id].
  rewrite pair_in_app_last. reflexivity.
Qed.

Lemma add_transaction_then_link_payer_witness :
  add_transaction 6000 b2 b6 day (txt "L1") (txt "A") (Some (SInt 3)) None None demo_db
  = (Ok (uuid7 6000 b2 b6),
     snd (add_transaction 6000 b2 b6 day (txt "L1") (txt "A") (Some (SInt 3)) None None demo_db))
  /\ link_user_to_transaction (uuid7 6000 b2 b6) (txt "A")
       (snd (add_transaction 6000 b2 b6 day (txt "L1") (txt "A") (Some (SInt 3)) None None demo_db))
     = (Err unique_user_transactions,
        snd (add_transaction 6000 b2 b6 day (txt "L1") (txt "A") (Some (SInt 3)) None None demo_db)).
Proof.
  assert (H : add_transaction 6000 b2 b6 day (txt "L1") (txt "A") (Some (SInt 3)) None None demo_db
              = (Ok (uuid7 6000 b2 b6),
                 snd (add_transaction 6000 b2 b6 day (txt "L1") (txt "A") (Some (SInt 3)) None None demo_db)))
    by (vm_compute; reflexivity).
  split; [exact H |].
  exact (proj2 (proj2 (add_transaction_then_link_payer 6000 b2 b6 day (txt "L1") (txt "A") (Some (SInt 3)) None None demo_db _ _ H))).
Defined.

Lemma filter_none {A} (f : A -> bool) (l : list A) :
  (forall x, In x l -> f x = false) -> filter f l = [].
Proof.
  induction l as [| x l IH]; intros H; simpl; [reflexivity |].
  rewrite (H x (or_introl eq_refl)). apply IH. intros y Hy. apply H. right. exact Hy.
Qed.

(** ** Identifiers and months as rendered *)

Lemma hex_char_is_hex (d : Z) : 0 <= d < 16 -> is_hex (hex_char d) = true.
Proof.
  intros Hd.
  assert (d = 0 \/ d = 1 \/ d = 2 \/ d = 3 \/ d = 4 \/ d = 5 \/ d = 6 \/ d = 7 \/ d = 8
          \/ d = 9 \/ d = 10 \/ d = 11 \/ d = 12 \/ d = 13 \/ d = 14 \/ d = 15) as Hc by lia.
  repeat destruct Hc as [-> | Hc]; [reflexivity .. | subst; reflexivity].
Qed.

Lemma hex_chars_hex (k : nat) (n : Z) : forallb is_hex (hex_chars k n) = true.
Proof.
  revert n; induction k as [| k IH]; intros n; simpl; [reflexivity |].
  rewrite forallb_app, IH. simpl. rewrite hex_char_is_hex by (apply Z.mod_pos_bound; lia).
  reflexivity.
Qed.

Lemma uuid_fmt_form (h : pystr) :
  length h = 32%nat -> forallb is_hex h = true -> uuid_form (uuid_fmt h) = true.
Proof.
  intros Hl Hh.
  do 32 (destruct h as [| ? h]; [discriminate |]). destruct h; [| discriminate].
  cbn [forallb] in Hh. split_bools.
  unfold uuid_form, uuid_fmt, sl.
  cbn [firstn skipn app List.length seq forallb nth Nat.eqb Nat.sub].
  repeat match goal with H : is_hex ?x = true |- _ => rewrite H; clear H end.
  reflexivity.
Qed.

(** Every identifier [uuid7] returns is canonical UUID text: 36
    characters, dashes at positions 8, 13, 18 and 23, lower-case hex digits
    elsewhere ([UUID(int=...)] never raises: the integer fits in 128 bits). *)
Theorem uuid7_form (ts : Z) (r2 r6 : list byte) :
  length r2 = 2%nat -> length r6 = 6%nat -> uuid_form (uuid7 ts r2 r6) = true.
Proof.
  intros H2 H6. unfold uuid7, uuid_str.
  rewrite fmt_032x_small by (apply uuid7_int_range; assumption).
  apply uuid_fmt_form; [apply hex_chars_length | apply hex_chars_hex].
Qed.

Lemma uuid7_form_witness :
  (length b2 = 2%nat /\ length b6 = 6%nat) /\ uuid_form (uuid7 1760659200000 b2 b6) = true.
Proof.
  assert (H2 : length b2 = 2%nat) by reflexivity.
  assert (H6 : length b6 = 6%nat) by reflexivity.
  split; [split; assumption | exact (uuid7_form 1760659200000 b2 b6 H2 H6)].
Defined.

Lemma is_space_digit (d : Z) : 0 <= d <= 9 -> is_space (digit_char d) = false.
Proof.
  intros Hd.
  assert (d = 0 \/ d = 1 \/ d = 2 \/ d = 3 \/ d = 4 \/ d = 5 \/ d = 6 \/ d = 7 \/ d = 8
          \/ d = 9) as Hc by lia.
  repeat destruct Hc as [-> | Hc]; [reflexivity .. | subst; reflexivity].
Qed.

(** On every [create_time] that [add_ledger] writes from a valid clock
    reading, the month of [get_ledger_info] is ["MM-YY"]: the zero-padded
    month, a dash and the last two digits of the year. *)
Theorem created_date_of_strftime (t : tm) :
  valid_tm t = true -> created_date_of (strftime_datetime t) = month_of t.
Proof.
  unfold valid_tm. intros H. repeat rewrite andb_true_iff in H. rewrite !Z.leb_le in H.
  destruct H as [[[[[[[[[[[H1 H2] H3] H4] H5] H6] H7] H8] H9] H10] H11] H12].
  destruct (dec_year_shape (tm_year t)) as (a & b & c & d & Ha & Hb & Hc & Hd & Ey); [lia |].
  destruct (pad2_shape (tm_mon t)) as (m1 & m2 & Hm1 & Hm2 & Em); [lia |].
  destruct (pad2_shape (tm_mday t)) as (d1 & d2 & Hd1 & Hd2 & Ed); [lia |].
  destruct (pad2_shape (tm_hour t)) as (h1 & h2 & Hh1 & Hh2 & Eh); [lia |].
  destruct (pad2_shape (tm_min t)) as (n1 & n2 & Hn1 & Hn2 & En); [lia |].
  destruct (pad2_shape (tm_sec t)) as (s1 & s2 & Hs1 & Hs2 & Es); [lia |].
  unfold month_of, strftime_datetime, strftime_date. rewrite Ey, Em, Ed, Eh, En, Es.
  unfold created_date_of, py_strip. cbn [app lstrip].
  rewrite (is_space_digit a) by lia. cbn [rev app lstrip].
  rewrite (is_space_digit s2) by lia. reflexivity.
Qed.

Lemma created_date_of_strftime_witness :
  valid_tm day = true /\ created_date_of (strftime_datetime day) = month_of day.
Proof.
  assert (H : valid_tm day = true) by reflexivity.
  split; [exact H | exact (created_date_of_strftime day H)].
Defined.

(** ** Reading back what was written *)

Lemma find_none_existsb {A} (f : A -> bool) (l : list A) : existsb f l = false -> find f l = None.
Proof.
  induction l as [| x l IH]; simpl; [reflexivity |].
  intros H. apply orb_false_iff in H as [Hx Hl]. rewrite Hx. exact (IH Hl).
Qed.

Lemma existsb_find {A} (f : A -> bool) (l : list A) : existsb f l = true -> exists x, find f l = Some x.
Proof.
  induction l as [| x l IH]; simpl; [discriminate |].
  destruct (f x); [eexists; reflexivity | exact IH].
Qed.

(** A ledger created by [add_ledger] reads back through [get_ledger_info]
    with the name chosen at creation, the creator as its only participant
    (no [user_ledgers] row can name a new ledger while the foreign keys
    hold) and, for a valid clock reading, the month ["MM-YY"] of the
    second reading. *)
Theorem add_ledger_then_info (ts : Z) (r2 r6 : list byte) (now1 now2 : tm)
    (uid : pystr) (name : option pystr) (s : db) (t : pystr) (s' : db) :
  fk_ok s = true -> valid_tm now2 = true ->
  add_ledger ts r2 r6 now1 now2 uid name s = (Ok t, s') ->
  exists u, select_user s uid = Some u /\ t = uuid7 ts r2 r6
  /\ get_ledger_info s' t
     = Ok (mk_info (if blank_name name then User.user_name u ++ ledger_word ++ strftime_date now1
                    else match name with Some n => n | None => [] end)
                   [uid] (month_of now2)).
Proof.
  intros Hfk Hv Hr. unfold add_ledger, with_conn, bind, query in Hr.
  destruct (select_user s uid) as [u |] eqn:Hu; [| discriminate].
  unfold insert_ledger in Hr. cbn [Ledger.ledger_id Ledger.creator_id] in Hr.
  destruct (ledger_exists s (uuid7 ts r2 r6)) eqn:Hx; [discriminate |].
  rewrite (select_user_exists s uid u Hu) in Hr. cbn [negb] in Hr. unfold ret in Hr.
  injection Hr as <- <-. exists u. split; [reflexivity | split; [reflexivity |]].
  unfold get_ledger_info, select_ledger. cbn [set_ledgers ledgers user_ledgers].
  rewrite find_snoc, find_none_existsb by exact Hx. cbn [Ledger.ledger_id]. rewrite eqs_refl.
  cbn [Ledger.creator_id Ledger.ledger_name Ledger.create_time].
  rewrite filter_none.
  - rewrite created_date_of_strftime by exact Hv. reflexivity.
  - intros [x y] Hin. cbn [snd]. destruct (eqs y (uuid7 ts r2 r6)) eqn:E; [| reflexivity].
    apply eqs_true in E. subst y. exfalso.
    unfold fk_ok in Hfk. split_bools.
    pose proof (proj1 (forallb_forall _ _) H2 (x, uuid7 ts r2 r6) Hin) as Hp.
    cbv beta in Hp. split_bools. cbn [snd] in *. congruence.
Qed.

Lemma add_ledger_then_info_witness :
  (fk_ok demo_db = true /\ valid_tm day = true
   /\ add_ledger 7000 b2 b6 day day (txt "A") None demo_db
      = (Ok (uuid7 7000 b2 b6), snd (add_ledger 7000 b2 b6 day day (txt "A") None demo_db)))
  /\ exists u, select_user demo_db (txt "A") = Some u /\ uuid7 7000 b2 b6 = uuid7 7000 b2 b6
  /\ get_ledger_info (snd (add_ledger 7000 b2 b6 day day (txt "A") None demo_db)) (uuid7 7000 b2 b6)
     = Ok (mk_info (if blank_name None then User.user_name u ++ ledger_word ++ strftime_date day
                    else [])
                   [txt "A"] (month_of day)).
Proof.
  assert (H1 : fk_ok demo_db = true) by (vm_compute; reflexivity).
  assert (H2 : valid_tm day = true) by reflexivity.
  assert (H3 : add_ledger 7000 b2 b6 day day (txt "A") None demo_db
               = (Ok (uuid7 7000 b2 b6), snd (add_ledger 7000 b2 b6 day day (txt "A") None demo_db)))
    by (vm_compute; reflexivity).
  split; [split; [exact H1 | split; [exact H2 | exact H3]] |].
  exact (add_ledger_then_info 7000 b2 b6 day day (txt "A") None demo_db _ _ H1 H2 H3).
Defined.

Lemma get_ledger_info_found (s : db) (lid : pystr) (l : Ledger.t) :
  select_ledger s lid = Some l ->
  exists info, get_ledger_info s lid = Ok info
  /\ info_ledger_name info = Ledger.ledger_name l
  /\ created_date info = created_date_of (Ledger.create_time l)
  /\ (forall x, In x (involved_user info) <-> In (x, lid) (user_ledgers s) \/ x = Ledger.creator_id l).
Proof.
  intros Hl. unfold get_ledger_info. rewrite Hl.
  eexists; split; [reflexivity |]. cbn [info_ledger_name involved_user created_date].
  set (linked := map fst (filter (fun p => eqs (snd p) lid) (user_ledgers s))).
  destruct (set_of_spec linked) as [Hnd Hin].
  destruct (sorted_spec (set_add (Ledger.creator_id l) (set_of linked)) (NoDup_set_add _ _ Hnd))
    as [_ Hsin].
  split; [reflexivity | split; [reflexivity |]].
  intros x. rewrite Hsin, In_set_add, Hin. unfold linked. rewrite In_linked.
  split; intros [H | H]; auto.
Qed.

(** After a successful [link_user_to_ledger], [get_ledger_info] shows the
    same name and month, and its participants are the former ones plus the
    linked user. *)
Theorem link_user_to_ledger_then_info (s : db) (lid uid : pystr) (s' : db) :
  link_user_to_ledger lid uid s = (Ok tt, s') ->
  exists i i', get_ledger_info s lid = Ok i /\ get_ledger_info s' lid = Ok i'
  /\ info_ledger_name i' = info_ledger_name i /\ created_date i' = created_date i
  /\ (forall x, In x (involved_user i') <-> x = uid \/ In x (involved_user i)).
Proof.
  intros Hr. unfold link_user_to_ledger, with_conn, insert_user_ledger in Hr.
  destruct (pair_in (uid, lid) (user_ledgers s)); [discriminate |].
  destruct (user_exists s uid); [| discriminate].
  destruct (ledger_exists s lid) eqn:Hl; [| discriminate].
  injection Hr as <-.
  destruct (existsb_find _ _ Hl) as [l Hsel]. fold (select_ledger s lid) in Hsel.
  destruct (get_ledger_info_found s lid l Hsel) as (i & Hi & Hn & Hd & Hin).
  destruct (get_ledger_info_found (set_user_ledgers s (user_ledgers s ++ [(uid, lid)])) lid l Hsel)
    as (i' & Hi' & Hn' & Hd' & Hin').
  exists i, i'. split; [exact Hi | split; [exact Hi' | split; [congruence | split; [congruence |]]]].
  intros x. rewrite Hin', Hin. cbn [set_user_ledgers user_ledgers]. rewrite in_app_iff.
  simpl. split.
  - intros [[H | [H | []]] | H]; [auto | left; congruence | auto].
  - intros [-> | [H | H]]; auto.
Qed.

Lemma link_user_to_ledger_then_info_witness :
  link_user_to_ledger (txt "L1") (txt "A") demo_db
  = (Ok tt, snd (link_user_to_ledger (txt "L1") (txt "A") demo_db))
  /\ exists i i', get_ledger_info demo_db (txt "L1") = Ok i
     /\ get_ledger_info (snd (link_user_to_ledger (txt "L1") (txt "A") demo_db)) (txt "L1") = Ok i'
     /\ info_ledger_name i' = info_ledger_name i /\ created_date i' = created_date i
     /\ (forall x, In x (involved_user i') <-> x = txt "A" \/ In x (involved_user i)).
Proof.
  assert (H : link_user_to_ledger (txt "L1") (txt "A") demo_db
              = (Ok tt, snd (link_user_to_ledger (txt "L1") (txt "A") demo_db)))
    by (vm_compute; reflexivity).
  split; [exact H | exact (link_user_to_ledger_then_info demo_db (txt "L1") (txt "A") _ H)].
Defined.

(** While the foreign keys hold, [get_user_info] leaves no ledger out:
    every ledger the user created or is linked to has its
    [get_ledger_info] summary in the list. *)
Theorem get_user_info_complete (s : db) (uid : pystr) (u : User.t) :
  fk_ok s = true -> select_user s uid = Some u ->
  exists infos, get_user_info s uid = Ok (mk_uinfo (User.user_name u) infos)
  /\ forall lid, (exists l, In l (ledgers s) /\ Ledger.creator_id l = uid /\ Ledger.ledger_id l = lid)
                 \/ In (uid, lid) (user_ledgers s) ->
     exists i, get_ledger_info s lid = Ok i /\ In i infos.
Proof.
  intros Hfk Hu. unfold get_user_info. rewrite Hu.
  set (created := map Ledger.ledger_id (filter (fun l => eqs (Ledger.creator_id l) uid) (ledgers s))).
  set (joined := map snd (filter (fun p => eqs (fst p) uid) (user_ledgers s))).
  destruct (set_of_spec created) as [Hnd1 Hin1].
  destruct (set_of_spec joined) as [Hnd2 Hin2].
  destruct (set_union_spec (set_of created) (set_of joined) Hnd1) as [Hnd Hin].
  destruct (sorted_spec _ Hnd) as [_ Hsin].
  rewrite collect_infos_kept. eexists; split; [reflexivity |].
  intros lid Hlid.
  assert (Hex : ledger_exists s lid = true).
  { destruct Hlid as [(l & Hl & _ & Hid) | Hj].
    - apply existsb_exists. exists l. split; [exact Hl | apply eqs_true; exact Hid].
    - unfold fk_ok in Hfk. split_bools.
      pose proof (proj1 (forallb_forall _ _) H2 (uid, lid) Hj) as Hp.
      cbv beta in Hp. split_bools. exact H4. }
  destruct (existsb_find _ _ Hex) as [l Hsel]. fold (select_ledger s lid) in Hsel.
  destruct (get_ledger_info_found s lid l Hsel) as (i & Hi & _).
  exists i. split; [exact Hi |].
  unfold kept_infos. apply in_flat_map. exists lid. split.
  - apply Hsin, Hin. destruct Hlid as [Hc | Hj].
    + left. apply Hin1. unfold created. apply In_created. exact Hc.
    + right. apply Hin2. unfold joined. apply In_joined. exact Hj.
  - rewrite Hi. left. reflexivity.
Qed.

Lemma get_user_info_complete_witness :
  (fk_ok demo_db = true /\ select_user demo_db (txt "A") = Some (User.mk (txt "A") (txt "Alice") (txt "h1")))
  /\ exists infos, get_user_info demo_db (txt "A") = Ok (mk_uinfo (txt "Alice") infos)
  /\ forall lid, (exists l, In l (ledgers demo_db) /\ Ledger.creator_id l = txt "A" /\ Ledger.ledger_id l = lid)
                 \/ In (txt "A", lid) (user_ledgers demo_db) ->
     exists i, get_ledger_info demo_db lid = Ok i /\ In i infos.
Proof.
  assert (H1 : fk_ok demo_db = true) by (vm_compute; reflexivity).
  assert (H2 : select_user demo_db (txt "A") = Some (User.mk (txt "A") (txt "Alice") (txt "h1")))
    by (vm_compute; reflexivity).
  split; [split; [exact H1 | exact H2] |].
  exact (get_user_info_complete demo_db (txt "A") _ H1 H2).
Defined.
